(** * Price index and grouped averages of the real-estate analyzer

    A shallow embedding of [houingData.py]: the [Property] record, the
    binary search tree of [BSTNode]s keyed by [latestPrice], the range search
    over it, and the two grouping pipelines (average price by city, average
    price by sale year and city).

    Numbers.  [latestPrice] is a Python [float].  The embedding uses the
    rational numbers [Q]: the comparisons [<] and [<=] of finite floats are
    exactly those of the rationals they denote, and [sum] and [/] are taken
    without rounding.  Not-a-number and the infinities have no counterpart
    among the prices.  The theorems on the averages say which prices are
    summed, in which order, and divided by which count; the module
    [Binary64] runs the same grouping with the rounding of the machine
    numbers, and the prompt of [main] is modelled on values that include
    not-a-number and the infinities.

    Objects.  A [BSTNode] reference is either [None] or a node object that
    exclusively owns its two children, so the tree is an inductive type and
    the in-place update of [node.left] / [node.right] in [insert_bst] is the
    functional rebuild of the path to the new leaf.  The methods that read or
    assign [self.properties] and [self.price_bst_root] are computations in a
    small state-and-exception monad over the analyzer record.  The module
    [Heap] has the same methods on a store of node objects named by
    references, where the assignments to [node.left] and [node.right] are
    updates of the store; it is related to the tree by [represents].

    Left out: reading the CSV file, the [print] calls, the drawing of the
    plots and the writing of the report file; and the interpreter's
    recursion limit, so the two recursive methods run on trees of any
    depth. *)

From Stdlib Require Import List String ZArith QArith Bool.
From Stdlib Require Import Permutation Sorted SetoidList SetoidPermutation.
From Stdlib Require Import Lia Lqa.
From Stdlib Require Import Floats Uint63.
Import ListNotations.

Local Open Scope Q_scope.

(** ** Data model *)

(** [class Property]: the constructor converts the CSV strings; the record
    holds the converted values.  [latest_saleyear] is parsed with the format
    ['%Y'], so the datetime carries the year only. *)
Record Property : Type := mkProperty {
  id : string;
  latestPrice : Q;
  numOfBedrooms : Z;
  city : string;
  latest_saleyear : Z
}.

(** [class BSTNode]; [Nil] is the [None] reference. *)
Inductive BST : Type :=
| Nil : BST
| BSTNode (property : Property) (left right : BST) : BST.

(** [class RealEstateAnalyzer]: the two attributes set by [__init__]. *)
Record RealEstateAnalyzer : Type := mkAnalyzer {
  properties : list Property;
  price_bst_root : BST
}.

Definition RealEstateAnalyzer_init : RealEstateAnalyzer :=
  {| properties := []; price_bst_root := Nil |}.

(** ** Comparisons on prices *)

Definition Qlt_bool (x y : Q) : bool :=
  (Qnum x * QDen y <? Qnum y * QDen x)%Z.

(** The chained comparison [lo <= x <= hi]. *)
Definition in_range (lo hi x : Q) : bool :=
  Qle_bool lo x && Qle_bool x hi.

Definition price_in_range (lo hi : Q) (p : Property) : bool :=
  in_range lo hi (latestPrice p).

(** ** The price tree *)

Fixpoint insert_bst (node : BST) (property : Property) : BST :=
  match node with
  | Nil => BSTNode property Nil Nil
  | BSTNode p l r =>
      if Qlt_bool (latestPrice property) (latestPrice p)
      then BSTNode p (insert_bst l property) r
      else BSTNode p l (insert_bst r property)
  end.

(** [search_by_price_range] appends to the list [results] it is given; the
    embedding threads that list through the three statements of the body. *)
Fixpoint search_by_price_range (root : BST) (min_price max_price : Q)
    (results : list Property) : list Property :=
  match root with
  | Nil => results
  | BSTNode p l r =>
      let results1 :=
        if in_range min_price max_price (latestPrice p)
        then results ++ [p] else results in
      let results2 :=
        if Qlt_bool min_price (latestPrice p)
        then search_by_price_range l min_price max_price results1
        else results1 in
      if Qlt_bool (latestPrice p) max_price
      then search_by_price_range r min_price max_price results2
      else results2
  end.

(** ** Dictionaries

    A Python [dict] keeps its keys in insertion order and holds each key
    once: an association list built only through [dd_update]. *)
Section Dict.
Context {K V : Type} (eqb : K -> K -> bool).

Definition dict : Type := list (K * V).

Fixpoint dict_get (k : K) (d : dict) : option V :=
  match d with
  | [] => None
  | (k', v) :: rest => if eqb k' k then Some v else dict_get k rest
  end.

(** [d[k] = f(d[k])] on a [defaultdict] whose factory yields [dflt]: a
    missing key is first created, at the end, with the default value. *)
Fixpoint dd_update (dflt : V) (k : K) (f : V -> V) (d : dict) : dict :=
  match d with
  | [] => [(k, f dflt)]
  | (k', v) :: rest =>
      if eqb k' k then (k', f v) :: rest
      else (k', v) :: dd_update dflt k f rest
  end.
End Dict.

Arguments dict : clear implicits.

(** ** Exceptions and the analyzer monad *)

Inductive exn : Type := ZeroDivisionError.

Inductive outcome (A : Type) : Type :=
| Returns (v : A)
| Raises (e : exn).

Arguments Returns {A} v.
Arguments Raises {A} e.

Definition M (A : Type) : Type :=
  RealEstateAnalyzer -> outcome A * RealEstateAnalyzer.

Definition ret {A} (v : A) : M A := fun s => (Returns v, s).

Definition bind {A B} (c : M A) (k : A -> M B) : M B :=
  fun s =>
    match c s with
    | (Returns v, s') => k v s'
    | (Raises e, s') => (Raises e, s')
    end.

Notation "x <- c ;; k" := (bind c (fun x => k))
  (at level 61, c at next level, right associativity).
Notation "c ;; k" := (bind c (fun _ => k))
  (at level 61, right associativity).

Definition lift {A} (o : outcome A) : M A := fun s => (o, s).

Definition get_properties : M (list Property) :=
  fun s => (Returns (properties s), s).

Definition get_price_bst_root : M BST :=
  fun s => (Returns (price_bst_root s), s).

Definition set_properties (ps : list Property) : M unit :=
  fun s => (Returns tt, {| properties := ps; price_bst_root := price_bst_root s |}).

Definition set_price_bst_root (t : BST) : M unit :=
  fun s => (Returns tt, {| properties := properties s; price_bst_root := t |}).

(** A [for] loop over a list whose body acts on the analyzer. *)
Fixpoint for_each {A} (xs : list A) (body : A -> M unit) : M unit :=
  match xs with
  | [] => ret tt
  | x :: rest => body x ;; for_each rest body
  end.

(** ** Methods of the analyzer *)

(** [load_data] on a file that opens and whose rows all convert: [rows] are
    the converted records, each one is appended to [self.properties].  The
    exceptions of [open], of a missing column and of [float], [int] and
    [strptime] are not modelled, so nothing is said here about whether
    [load_data] raises. *)
Definition load_data (rows : list Property) : M unit :=
  for_each rows (fun prop =>
    ps <- get_properties ;;
    set_properties (ps ++ [prop])).

Definition build_price_bst : M unit :=
  set_price_bst_root Nil ;;
  ps <- get_properties ;;
  for_each ps (fun property =>
    root <- get_price_bst_root ;;
    set_price_bst_root (insert_bst root property)).

Definition find_properties_in_price_range (min_price max_price : Q)
    : M (list Property) :=
  root <- get_price_bst_root ;;
  ret (search_by_price_range root min_price max_price []).

(** [sum(prices)]: starts from [0] and adds from the left. *)
Definition py_sum (prices : list Q) : Q := fold_left Qplus prices 0.

Definition py_len {A} (l : list A) : Q := inject_Z (Z.of_nat (length l)).

(** [sum(prices) / len(prices)]; the division raises on a zero divisor. *)
Definition mean (prices : list Q) : outcome Q :=
  match prices with
  | [] => Raises ZeroDivisionError
  | _ :: _ => Returns (py_sum prices / py_len prices)
  end.

(** The comprehension [{loc: sum(prices) / len(prices) for loc, prices in
    d.items()}]: items are visited in order, the first exception ends it. *)
Fixpoint mean_items {K} (items : dict K (list Q)) : outcome (dict K Q) :=
  match items with
  | [] => Returns []
  | (loc, prices) :: rest =>
      match mean prices with
      | Raises e => Raises e
      | Returns m =>
          match mean_items rest with
          | Raises e => Raises e
          | Returns d => Returns ((loc, m) :: d)
          end
      end
  end.

Definition append_price (x : Q) (prices : list Q) : list Q := prices ++ [x].

(** The first loop of [calculate_average_price_by_location]:
    [location_prices[prop.city].append(prop.latestPrice)]. *)
Definition location_prices (ps : list Property) : dict string (list Q) :=
  fold_left
    (fun d prop =>
       dd_update String.eqb [] (city prop) (append_price (latestPrice prop)) d)
    ps [].

Definition calculate_average_price_by_location : M (dict string Q) :=
  ps <- get_properties ;;
  avg_prices <- lift (mean_items (location_prices ps)) ;;
  ret avg_prices.

(** The first loop of [find_trends]:
    [yearly_location_prices[year][prop.city].append(prop.latestPrice)]. *)
Definition yearly_location_prices (ps : list Property)
    : dict Z (dict string (list Q)) :=
  fold_left
    (fun d prop =>
       let year := latest_saleyear prop in
       dd_update Z.eqb [] year
         (dd_update String.eqb [] (city prop) (append_price (latestPrice prop)))
         d)
    ps [].

(** The second loop of [find_trends]: [trends[year] = {...}] per year. *)
Fixpoint trends_of (items : dict Z (dict string (list Q)))
    : outcome (dict Z (dict string Q)) :=
  match items with
  | [] => Returns []
  | (year, locations) :: rest =>
      match mean_items locations with
      | Raises e => Raises e
      | Returns means =>
          match trends_of rest with
          | Raises e => Raises e
          | Returns d => Returns ((year, means) :: d)
          end
      end
  end.

Definition find_trends : M (dict Z (dict string Q)) :=
  ps <- get_properties ;;
  trends <- lift (trends_of (yearly_location_prices ps)) ;;
  ret trends.

(** ** The data behind the plots, and the prompt of [main]

    [visualize_data] hands lists to the plotting library; the lists
    themselves are computed by the code below. *)

(** [sorted(...)] on years: integers in ascending order. *)
Fixpoint insert_year (y : Z) (ys : list Z) : list Z :=
  match ys with
  | [] => [y]
  | z :: rest => if (y <=? z)%Z then y :: ys else z :: insert_year y rest
  end.

Definition py_sorted (ys : list Z) : list Z := fold_right insert_year [] ys.

(** [d.get(k, default)]. *)
Definition dict_get_default {K V} (eqb : K -> K -> bool) (k : K) (dflt : V)
    (d : dict K V) : V :=
  match dict_get eqb k d with
  | Some v => v
  | None => dflt
  end.

(** [[trends[year].get(location, 0) for year in years]]; the subscript
    [trends[year]] raises [KeyError] on a missing year, here [None]. *)
Fixpoint yearly_prices_for (trends : dict Z (dict string Q)) (location : string)
    (years : list Z) : option (list Q) :=
  match years with
  | [] => Some []
  | year :: rest =>
      match dict_get Z.eqb year trends with
      | None => None
      | Some by_city =>
          match yearly_prices_for trends location rest with
          | None => None
          | Some tail => Some (dict_get_default String.eqb location 0 by_city :: tail)
          end
      end
  end.

(** The two lists given to [plt.plot] for one location:
    [sorted(trends.keys())] and [yearly_prices]. *)
Definition yearly_prices (trends : dict Z (dict string Q)) (location : string)
    : option (list Z * list Q) :=
  let years := py_sorted (map fst trends) in
  match yearly_prices_for trends location years with
  | None => None
  | Some prices => Some (years, prices)
  end.

(** A value of [float(...)]: a number, not-a-number, or an infinity. *)
Inductive pyfloat : Type :=
| Number (q : Q)
| NaN
| Infinity (negative : bool).

(** [x < y] on such values; [x > y] is [y < x].  Every comparison with
    not-a-number is false. *)
Definition pyfloat_lt (x y : pyfloat) : bool :=
  match x, y with
  | NaN, _ | _, NaN => false
  | Number a, Number b => Qlt_bool a b
  | Infinity true, Infinity true => false
  | Infinity true, _ => true
  | Number _, Infinity false => true
  | _, _ => false
  end.

(** The prompt loop of [main].  Each answer is the outcome of
    [float(input(...))]: a value, or [None] when the conversion raises
    [ValueError].  A [ValueError], raised by a conversion or by the check of
    the bounds, starts the loop again; running out of answers is the
    [EOFError] of [input], which the loop does not catch, here [None]. *)
Fixpoint prompt_price_range (answers : list (option pyfloat))
    : option (pyfloat * pyfloat) :=
  match answers with
  | [] => None
  | None :: rest => prompt_price_range rest
  | Some _ :: [] => None
  | Some _ :: None :: rest => prompt_price_range rest
  | Some min_price :: Some max_price :: rest =>
      if pyfloat_lt min_price (Number 0) || pyfloat_lt max_price (Number 0)
         || pyfloat_lt max_price min_price
      then prompt_price_range rest
      else Some (min_price, max_price)
  end.

(** ** The averages in binary64

    [calculate_average_price_by_location] once more, on a listing reduced to
    the two attributes the method reads and with the price as a binary64
    number: [sum] adds from the left starting at [0] and [/] divides by the
    length converted to a float, each operation rounding to nearest.  (From
    Python 3.12 on [sum] compensates the rounding of the additions; on the
    whole-dollar prices used below every partial sum is exact either way.) *)
Module Binary64.

Record Listing : Type := mkListing {
  city : string;
  latestPrice : float
}.

Definition py_sum (prices : list float) : float :=
  fold_left PrimFloat.add prices 0%float.

Definition py_len {A} (l : list A) : float :=
  PrimFloat.of_uint63 (Uint63.of_Z (Z.of_nat (length l))).

Definition mean (prices : list float) : outcome float :=
  match prices with
  | [] => Raises ZeroDivisionError
  | _ :: _ => Returns (py_sum prices / py_len prices)%float
  end.

Fixpoint mean_items (items : dict string (list float))
    : outcome (dict string float) :=
  match items with
  | [] => Returns []
  | (loc, prices) :: rest =>
      match mean prices with
      | Raises e => Raises e
      | Returns m =>
          match mean_items rest with
          | Raises e => Raises e
          | Returns d => Returns ((loc, m) :: d)
          end
      end
  end.

Definition location_prices (ps : list Listing) : dict string (list float) :=
  fold_left
    (fun d prop =>
       dd_update String.eqb [] (city prop)
         (fun prices => prices ++ [latestPrice prop]) d)
    ps [].

Definition calculate_average_price_by_location (ps : list Listing)
    : outcome (dict string float) :=
  mean_items (location_prices ps).

(** The number of listings of a city, and the sum over the groups of count
    times mean, as a program would compute them on the result. *)
Definition count_city (c : string) (ps : list Listing) : float :=
  py_len (filter (fun p => String.eqb (city p) c) ps).



End Binary64.

(** ** The analyzer as objects

    The same methods once more, on an object store, to follow what they do
    to the nodes.  A [BSTNode] is an object named by a reference; its [left]
    and [right] attributes hold references or [None]; the analyzer holds
    the reference of the root.  [insert_bst] creates one object and assigns
    [node.left] or [node.right] of objects that exist.  The list [results]
    and the dictionaries of the two analyses are objects of their own, made
    by the call that uses them; they are passed along as values.

    Following references is not structural recursion: the two recursive
    methods take a bound [fuel] on the depth they may reach.  A computation
    is [Stuck] when the bound is used up or a reference names no object;
    the program has no such outcome. *)
Module Heap.

Definition ref : Type := nat.

Record BSTNode : Type := mkNode {
  property : Property;
  left : option ref;
  right : option ref
}.

Record world : Type := mkWorld {
  properties : list Property;
  price_bst_root : option ref;
  nodes : list BSTNode
}.

Inductive result (A : Type) : Type :=
| Done (v : A)
| Raised (e : exn)
| Stuck.

Arguments Done {A} v.
Arguments Raised {A} e.
Arguments Stuck {A}.

Definition H (A : Type) : Type := world -> result A * world.

Definition ret {A} (v : A) : H A := fun w => (Done v, w).

Definition bind {A B} (c : H A) (k : A -> H B) : H B :=
  fun w =>
    match c w with
    | (Done v, w') => k v w'
    | (Raised e, w') => (Raised e, w')
    | (Stuck, w') => (Stuck, w')
    end.

Declare Scope heap_scope.
Notation "x <- c ;; k" := (bind c (fun x => k))
  (at level 61, c at next level, right associativity) : heap_scope.
Notation "c ;; k" := (bind c (fun _ => k))
  (at level 61, right associativity) : heap_scope.
Local Open Scope heap_scope.

Definition stuck {A} : H A := fun w => (Stuck, w).

Definition of_outcome {A} (o : outcome A) : result A :=
  match o with
  | Returns v => Done v
  | Raises e => Raised e
  end.

Definition lift {A} (o : outcome A) : H A := fun w => (of_outcome o, w).

Definition get_properties : H (list Property) :=
  fun w => (Done (properties w), w).

Definition get_price_bst_root : H (option ref) :=
  fun w => (Done (price_bst_root w), w).

Definition set_properties (ps : list Property) : H unit :=
  fun w => (Done tt, mkWorld ps (price_bst_root w) (nodes w)).

Definition set_price_bst_root (r : option ref) : H unit :=
  fun w => (Done tt, mkWorld (properties w) r (nodes w)).

(** [BSTNode(property)]: a new object, with both children [None]. *)
Definition new_node (p : Property) : H ref :=
  fun w =>
    (Done (length (nodes w)),
     mkWorld (properties w) (price_bst_root w)
             (nodes w ++ [mkNode p None None])).

(** The object a reference names. *)
Definition get_node (r : ref) : H BSTNode :=
  fun w =>
    match nth_error (nodes w) r with
    | Some n => (Done n, w)
    | None => (Stuck, w)
    end.

(** The store with the object at [r] replaced. *)
Fixpoint put (r : ref) (n : BSTNode) (ns : list BSTNode) : list BSTNode :=
  match ns, r with
  | [], _ => []
  | _ :: rest, O => n :: rest
  | x :: rest, S r' => x :: put r' n rest
  end.

(** [node.left = v] and [node.right = v] on the object at [r]. *)
Definition set_left (r : ref) (v : option ref) : H unit :=
  fun w =>
    match nth_error (nodes w) r with
    | Some n =>
        (Done tt,
         mkWorld (properties w) (price_bst_root w)
                 (put r (mkNode (property n) v (right n)) (nodes w)))
    | None => (Stuck, w)
    end.

Definition set_right (r : ref) (v : option ref) : H unit :=
  fun w =>
    match nth_error (nodes w) r with
    | Some n =>
        (Done tt,
         mkWorld (properties w) (price_bst_root w)
                 (put r (mkNode (property n) (left n) v) (nodes w)))
    | None => (Stuck, w)
    end.

Fixpoint for_each {A} (xs : list A) (body : A -> H unit) : H unit :=
  match xs with
  | [] => ret tt
  | x :: rest => body x ;; for_each rest body
  end.

(** A [for] loop that carries a local object [acc] from round to round. *)
Fixpoint for_fold {A B} (xs : list A) (acc : B) (body : B -> A -> H B) : H B :=
  match xs with
  | [] => ret acc
  | x :: rest => acc' <- body acc x ;; for_fold rest acc' body
  end.

Definition load_data (rows : list Property) : H unit :=
  for_each rows (fun prop =>
    ps <- get_properties ;;
    set_properties (ps ++ [prop])).

Fixpoint insert_bst (fuel : nat) (node : option ref) (prop : Property)
    : H (option ref) :=
  match node with
  | None => r <- new_node prop ;; ret (Some r)
  | Some r =>
      match fuel with
      | O => stuck
      | S fuel' =>
          n <- get_node r ;;
          if Qlt_bool (latestPrice prop) (latestPrice (property n))
          then
            l <- insert_bst fuel' (left n) prop ;;
            set_left r l ;;
            ret (Some r)
          else
            r' <- insert_bst fuel' (right n) prop ;;
            set_right r r' ;;
            ret (Some r)
      end
  end.

Definition build_price_bst (fuel : nat) : H unit :=
  set_price_bst_root None ;;
  ps <- get_properties ;;
  for_each ps (fun prop =>
    root <- get_price_bst_root ;;
    root' <- insert_bst fuel root prop ;;
    set_price_bst_root root').

Fixpoint search_by_price_range (fuel : nat) (root : option ref)
    (min_price max_price : Q) (results : list Property)
    : H (list Property) :=
  match root with
  | None => ret results
  | Some r =>
      match fuel with
      | O => stuck
      | S fuel' =>
          n <- get_node r ;;
          let results1 :=
            if in_range min_price max_price (latestPrice (property n))
            then results ++ [property n] else results in
          results2 <-
            (if Qlt_bool min_price (latestPrice (property n))
             then search_by_price_range fuel' (left n) min_price max_price
                    results1
             else ret results1) ;;
          if Qlt_bool (latestPrice (property n)) max_price
          then search_by_price_range fuel' (right n) min_price max_price
                 results2
          else ret results2
      end
  end.

Definition find_properties_in_price_range (fuel : nat)
    (min_price max_price : Q) : H (list Property) :=
  root <- get_price_bst_root ;;
  search_by_price_range fuel root min_price max_price [].

Definition calculate_average_price_by_location : H (dict string Q) :=
  ps <- get_properties ;;
  location_prices <-
    for_fold ps []
      (fun d prop =>
         ret (dd_update String.eqb [] (city prop)
                (append_price (latestPrice prop)) d)) ;;
  lift (mean_items location_prices).

Definition find_trends : H (dict Z (dict string Q)) :=
  ps <- get_properties ;;
  yearly_location_prices <-
    for_fold ps []
      (fun d prop =>
         let year := latest_saleyear prop in
         ret (dd_update Z.eqb [] year
                (dd_update String.eqb [] (city prop)
                   (append_price (latestPrice prop))) d)) ;;
  lift (trends_of yearly_location_prices).

(** A new analyzer: no listings, no root, no node objects. *)
Definition RealEstateAnalyzer_init : world := mkWorld [] None [].

End Heap.

(** A store holds the tree [t] at a reference: the objects reached from it
    carry the listings and the shape of [t]. *)
Inductive represents (ns : list Heap.BSTNode) : option Heap.ref -> BST -> Prop :=
| represents_nil : represents ns None Nil
| represents_node (r : Heap.ref) (p : Property) (lref rref : option Heap.ref)
    (l rt : BST) :
    nth_error ns r = Some (Heap.mkNode p lref rref) ->
    represents ns lref l ->
    represents ns rref rt ->
    represents ns (Some r) (BSTNode p l rt).

(** The same, with the references of the objects that make up the tree:
    each object occurs once, no object is shared between subtrees. *)
Inductive shaped (ns : list Heap.BSTNode)
    : option Heap.ref -> BST -> list Heap.ref -> Prop :=
| shaped_nil : shaped ns None Nil []
| shaped_node (r : Heap.ref) (p : Property) (lref rref : option Heap.ref)
    (l rt : BST) (fl fr : list Heap.ref) :
    nth_error ns r = Some (Heap.mkNode p lref rref) ->
    shaped ns lref l fl ->
    shaped ns rref rt fr ->
    ~ In r (fl ++ fr) ->
    (forall x, In x fl -> ~ In x fr) ->
    shaped ns (Some r) (BSTNode p l rt) (r :: fl ++ fr).

(** The number of nodes on the longest path from the root. *)
Fixpoint height (t : BST) : nat :=
  match t with
  | Nil => O
  | BSTNode _ l r => S (Nat.max (height l) (height r))
  end.

(** ** Specification vocabulary *)

(** The listings of a tree, each node before its left and right subtrees:
    the order in which [search_by_price_range] meets them. *)
Fixpoint preorder (t : BST) : list Property :=
  match t with
  | Nil => []
  | BSTNode p l r => p :: preorder l ++ preorder r
  end.

(** The order invariant of the price tree: smaller prices to the left, larger
    or equal prices to the right, at every node. *)
Fixpoint bst_ordered (t : BST) : Prop :=
  match t with
  | Nil => True
  | BSTNode p l r =>
      Forall (fun x => latestPrice x < latestPrice p) (preorder l) /\
      Forall (fun x => latestPrice p <= latestPrice x) (preorder r) /\
      bst_ordered l /\ bst_ordered r
  end.

(** Two listings at the same price. *)
Definition same_price (x y : Property) : Prop :=
  latestPrice x == latestPrice y.

(** No two listings of the list have the same price. *)
Definition distinct_prices (ps : list Property) : Prop :=
  NoDupA same_price ps.

(** Non-decreasing by price. *)
Definition ascending (ps : list Property) : Prop :=
  StronglySorted (fun x y => latestPrice x <= latestPrice y) ps.

(** [subseq xs ys]: [xs] is [ys] with some elements left out, order kept. *)
Inductive subseq {A : Type} : list A -> list A -> Prop :=
| subseq_nil : subseq [] []
| subseq_skip x xs ys : subseq xs ys -> subseq xs (x :: ys)
| subseq_keep x xs ys : subseq xs ys -> subseq (x :: xs) (x :: ys).

(** The state of the analyzer after [load_data] of each batch in turn,
    starting from a new analyzer: no index has been built. *)
Definition loaded (batches : list (list Property)) : RealEstateAnalyzer :=
  fold_left (fun s rows => snd (load_data rows s)) batches RealEstateAnalyzer_init.

(** The number of listings of a city, as [len] gives it. *)
Definition count_city (c : string) (ps : list Property) : Q :=
  py_len (filter (fun p => String.eqb (city p) c) ps).

(** The prices of the listings of a city, in the order of the collection. *)
Definition prices_of_city (c : string) (ps : list Property) : list Q :=
  map latestPrice (filter (fun p => String.eqb (city p) c) ps).

(** Same keys in the same order, values equal as rationals. *)
Definition dict_equiv {K} (d1 d2 : dict K Q) : Prop :=
  Forall2 (fun kv1 kv2 => fst kv1 = fst kv2 /\ snd kv1 == snd kv2) d1 d2.

(** [distinct_prices], decided. *)
Fixpoint distinct_pricesb (ps : list Property) : bool :=
  match ps with
  | [] => true
  | p :: rest =>
      forallb (fun q => negb (Qeq_bool (latestPrice p) (latestPrice q))) rest
      && distinct_pricesb rest
  end.

(** The mean as a value, for a list known to be non-empty. *)
Definition mean_value (prices : list Q) : Q := py_sum prices / py_len prices.

(** The first listing of the list whose price is [b], if there is one. *)
Fixpoint first_at (b : Q) (ps : list Property) : list Property :=
  match ps with
  | [] => []
  | p :: rest => if Qeq_bool (latestPrice p) b then [p] else first_at b rest
  end.

(** The node priced [b] that a descent from the root reaches first. *)
Fixpoint top_at (b : Q) (t : BST) : list Property :=
  match t with
  | Nil => []
  | BSTNode p l r =>
      if Qeq_bool (latestPrice p) b then [p]
      else if Qlt_bool b (latestPrice p) then top_at b l else top_at b r
  end.

(** Prices in the half-open interval from [lo] up to, not including, [hi]. *)
Definition price_below (lo hi : Q) (p : Property) : bool :=
  Qle_bool lo (latestPrice p) && Qlt_bool (latestPrice p) hi.

(** The listings of a tree from left to right: left subtree, node, right
    subtree. *)
Fixpoint inorder (t : BST) : list Property :=
  match t with
  | Nil => []
  | BSTNode p l r => inorder l ++ p :: inorder r
  end.

(** Insertion into a list kept in price order, behind the listings of the
    same price. *)
Fixpoint sort_insert (p : Property) (ps : list Property) : list Property :=
  match ps with
  | [] => [p]
  | x :: rest =>
      if Qlt_bool (latestPrice p) (latestPrice x) then p :: ps
      else x :: sort_insert p rest
  end.

(** The collection sorted by price, listings of equal price in the order of
    the collection. *)
Definition price_sort (ps : list Property) : list Property :=
  fold_left (fun sorted p => sort_insert p sorted) ps [].

(** A tree that is one chain of right children. *)
Fixpoint right_spine (ps : list Property) : BST :=
  match ps with
  | [] => Nil
  | p :: rest => BSTNode p Nil (right_spine rest)
  end.

(** The prices of the listings of one year and one city. *)
Definition prices_of_year_city (y : Z) (c : string) (ps : list Property)
    : list Q :=
  prices_of_city c (filter (fun p => Z.eqb (latest_saleyear p) y) ps).

(** The elements of a list, each once, in order of first appearance. *)
Definition first_seen (cs : list string) : list string :=
  fold_left
    (fun seen c =>
       if existsb (fun k => String.eqb k c) seen then seen else seen ++ [c])
    cs [].

(** ** Sample data *)

(** Three listings in two cities and two years. *)
Definition listing1 : Property := mkProperty "1" 100 3 "A" 2020.
Definition listing2 : Property := mkProperty "2" 300 4 "B" 2020.
Definition listing3 : Property := mkProperty "3" 200 2 "A" 2021.
Definition scenario : list Property := [listing1; listing2; listing3].

(** Two listings sold at the same price. *)
Definition twin1 : Property := mkProperty "10" 250000 3 "Austin" 2019.
Definition twin2 : Property := mkProperty "11" 250000 4 "Austin" 2020.
Definition twins : list Property := [twin1; twin2].

(** A new analyzer after [load_data] of [ps] and [build_price_bst]. *)
Definition built (ps : list Property) : RealEstateAnalyzer :=
  snd (build_price_bst (loaded [ps])).

(** The objects after [load_data] of the three sample listings and
    [build_price_bst], from a new analyzer. *)
Definition scenario_objects : Heap.world :=
  snd (Heap.build_price_bst 3
         (snd (Heap.load_data scenario Heap.RealEstateAnalyzer_init))).

(** ** Comparisons *)

Lemma Qlt_bool_iff (x y : Q) : Qlt_bool x y = true <-> x < y.
Proof. unfold Qlt_bool, Qlt. apply Z.ltb_lt. Qed.

Lemma Qlt_bool_false_iff (x y : Q) : Qlt_bool x y = false <-> y <= x.
Proof. unfold Qlt_bool, Qle. apply Z.ltb_ge. Qed.

Lemma Qle_bool_false_iff (x y : Q) : Qle_bool x y = false <-> y < x.
Proof. unfold Qle_bool, Qlt. apply Z.leb_gt. Qed.

Lemma in_range_iff (lo hi x : Q) : in_range lo hi x = true <-> lo <= x /\ x <= hi.
Proof.
  unfold in_range. rewrite andb_true_iff, !Qle_bool_iff. tauto.
Qed.

Lemma in_range_false_iff (lo hi x : Q) :
  in_range lo hi x = false <-> x < lo \/ hi < x.
Proof.
  unfold in_range. rewrite andb_false_iff, !Qle_bool_false_iff. tauto.
Qed.

(** Case analysis on every price test of the goal, as order facts. *)
Ltac price_cases :=
  repeat match goal with
  | |- context [Qlt_bool ?x ?y] =>
      let E := fresh "E" in
      destruct (Qlt_bool x y) eqn:E;
      [apply Qlt_bool_iff in E | apply Qlt_bool_false_iff in E]
  | |- context [in_range ?a ?b ?x] =>
      let E := fresh "E" in
      destruct (in_range a b x) eqn:E;
      [apply in_range_iff in E; destruct E | apply in_range_false_iff in E]
  end.

#[global] Instance same_price_equiv : Equivalence same_price.
Proof.
  split; unfold same_price.
  - intros x. reflexivity.
  - intros x y H. symmetry. exact H.
  - intros x y z H1 H2. rewrite H1. exact H2.
Qed.

(** ** The analyzer monad on the methods *)

Lemma load_data_run (rows : list Property) (s : RealEstateAnalyzer) :
  load_data rows s =
  (Returns tt, {| properties := properties s ++ rows;
                  price_bst_root := price_bst_root s |}).
Proof.
  unfold load_data. revert s.
  induction rows as [|row rows IH]; intros [ps root]; cbn.
  - now rewrite app_nil_r.
  - unfold bind at 1. cbn. rewrite IH. cbn. now rewrite <- app_assoc.
Qed.

Lemma insert_loop_run (ps : list Property) (s : RealEstateAnalyzer) :
  for_each ps (fun property =>
    root <- get_price_bst_root ;;
    set_price_bst_root (insert_bst root property)) s =
  (Returns tt, {| properties := properties s;
                  price_bst_root := fold_left insert_bst ps (price_bst_root s) |}).
Proof.
  revert s. induction ps as [|p ps IH]; intros [qs root]; cbn.
  - reflexivity.
  - unfold bind at 1. cbn. now rewrite IH.
Qed.

Lemma build_price_bst_run (s : RealEstateAnalyzer) :
  build_price_bst s =
  (Returns tt, {| properties := properties s;
                  price_bst_root := fold_left insert_bst (properties s) Nil |}).
Proof.
  unfold build_price_bst, bind, set_price_bst_root, get_properties. cbn.
  now rewrite insert_loop_run.
Qed.

Lemma find_properties_in_price_range_run (a b : Q) (s : RealEstateAnalyzer) :
  find_properties_in_price_range a b s =
  (Returns (search_by_price_range (price_bst_root s) a b []), s).
Proof. reflexivity. Qed.

Lemma loaded_root (batches : list (list Property)) :
  price_bst_root (loaded batches) = Nil.
Proof.
  unfold loaded.
  assert (G : forall s, price_bst_root s = Nil ->
            price_bst_root
              (fold_left (fun s rows => snd (load_data rows s)) batches s) = Nil).
  { induction batches as [|rows batches IH]; intros s Hs; cbn.
    - exact Hs.
    - apply IH. now rewrite load_data_run. }
  now apply G.
Qed.

(** ** The tree: contents and order *)

Lemma preorder_insert_bst (t : BST) (p : Property) :
  Permutation (preorder (insert_bst t p)) (p :: preorder t).
Proof.
  induction t as [|q l IHl r IHr]; cbn.
  - reflexivity.
  - destruct (Qlt_bool (latestPrice p) (latestPrice q)); cbn.
    + rewrite IHl. cbn. apply perm_swap.
    + rewrite IHr. rewrite <- Permutation_middle. apply perm_swap.
Qed.

Lemma preorder_fold_insert (ps : list Property) (t : BST) :
  Permutation (preorder (fold_left insert_bst ps t)) (preorder t ++ ps).
Proof.
  revert t. induction ps as [|p ps IH]; intros t; cbn.
  - now rewrite app_nil_r.
  - rewrite IH, preorder_insert_bst. cbn. apply Permutation_middle.
Qed.

Lemma bst_ordered_insert_bst (t : BST) (p : Property) :
  bst_ordered t -> bst_ordered (insert_bst t p).
Proof.
  induction t as [|q l IHl r IHr]; cbn.
  - intros _. repeat split; constructor.
  - intros (Hl & Hr & Ol & Or).
    price_cases; cbn; repeat split; auto.
    + eapply Permutation_Forall.
      * symmetry. apply preorder_insert_bst.
      * constructor; assumption.
    + eapply Permutation_Forall.
      * symmetry. apply preorder_insert_bst.
      * constructor; assumption.
Qed.

Lemma bst_ordered_fold_insert (ps : list Property) (t : BST) :
  bst_ordered t -> bst_ordered (fold_left insert_bst ps t).
Proof.
  revert t. induction ps as [|p ps IH]; intros t Ht; cbn.
  - exact Ht.
  - apply IH. now apply bst_ordered_insert_bst.
Qed.

(** ** The range search *)

Lemma search_by_price_range_acc (t : BST) (a b : Q) (acc : list Property) :
  search_by_price_range t a b acc = acc ++ search_by_price_range t a b [].
Proof.
  revert acc. induction t as [|p l IHl r IHr]; intros acc; cbn.
  - now rewrite app_nil_r.
  - set (hit := if in_range a b (latestPrice p) then [p] else []).
    assert (E1 : forall xs, (if in_range a b (latestPrice p) then xs ++ [p] else xs)
                            = xs ++ hit).
    { intros xs. subst hit. destruct (in_range a b (latestPrice p)); cbn;
        now rewrite ?app_nil_r. }
    rewrite (E1 acc). fold hit.
    destruct (Qlt_bool a (latestPrice p)); destruct (Qlt_bool (latestPrice p) b).
    + rewrite IHr, IHl. rewrite (IHr (search_by_price_range l a b hit)).
      rewrite (IHl hit). now rewrite !app_assoc.
    + rewrite IHl. rewrite (IHl hit). now rewrite !app_assoc.
    + rewrite IHr. rewrite (IHr hit). now rewrite !app_assoc.
    + reflexivity.
Qed.

(** Leaves every search with a non-empty accumulator as an append. *)
Ltac split_acc a b :=
  repeat match goal with
  | |- context [search_by_price_range ?t a b ?acc] =>
      lazymatch acc with
      | [] => fail
      | _ => rewrite (search_by_price_range_acc t a b acc)
      end
  end.

Lemma search_by_price_range_node (p : Property) (l r : BST) (a b : Q) :
  search_by_price_range (BSTNode p l r) a b [] =
  (if in_range a b (latestPrice p) then [p] else []) ++
  (if Qlt_bool a (latestPrice p) then search_by_price_range l a b [] else []) ++
  (if Qlt_bool (latestPrice p) b then search_by_price_range r a b [] else []).
Proof.
  cbn.
  destruct (in_range a b (latestPrice p));
    destruct (Qlt_bool a (latestPrice p));
    destruct (Qlt_bool (latestPrice p) b); cbn;
    split_acc a b; cbn; rewrite ?app_nil_r; reflexivity.
Qed.

Lemma subseq_nil_l {A} (ys : list A) : subseq [] ys.
Proof. induction ys; constructor; assumption. Qed.

Lemma subseq_refl {A} (xs : list A) : subseq xs xs.
Proof. induction xs; constructor; assumption. Qed.

Lemma subseq_app {A} (xs xs' ys ys' : list A) :
  subseq xs ys -> subseq xs' ys' -> subseq (xs ++ xs') (ys ++ ys').
Proof.
  intros H H'. induction H; cbn; try constructor; assumption.
Qed.

Lemma search_by_price_range_subseq (t : BST) (a b : Q) :
  subseq (search_by_price_range t a b []) (preorder t).
Proof.
  induction t as [|p l IHl r IHr].
  - constructor.
  - rewrite search_by_price_range_node.
    change (preorder (BSTNode p l r)) with ([p] ++ preorder l ++ preorder r).
    apply subseq_app; [|apply subseq_app].
    + destruct (in_range a b (latestPrice p));
        [apply subseq_refl | apply subseq_nil_l].
    + destruct (Qlt_bool a (latestPrice p)); [exact IHl | apply subseq_nil_l].
    + destruct (Qlt_bool (latestPrice p) b); [exact IHr | apply subseq_nil_l].
Qed.

Lemma search_by_price_range_in_range (t : BST) (a b : Q) :
  Forall (fun p => price_in_range a b p = true) (search_by_price_range t a b []).
Proof.
  induction t as [|p l IHl r IHr].
  - constructor.
  - rewrite search_by_price_range_node.
    apply Forall_app. split; [|apply Forall_app; split].
    + destruct (in_range a b (latestPrice p)) eqn:E; repeat constructor.
      exact E.
    + destruct (Qlt_bool a (latestPrice p)); [exact IHl | constructor].
    + destruct (Qlt_bool (latestPrice p) b); [exact IHr | constructor].
Qed.

Lemma filter_none {A} (f : A -> bool) (xs : list A) :
  Forall (fun x => f x = false) xs -> filter f xs = [].
Proof.
  induction 1 as [|x xs Hx _ IH]; cbn.
  - reflexivity.
  - now rewrite Hx.
Qed.

Lemma Permutation_filter {A} (f : A -> bool) (xs ys : list A) :
  Permutation xs ys -> Permutation (filter f xs) (filter f ys).
Proof.
  induction 1 as [|x xs ys _ IH|x y xs|xs ys zs _ IH1 _ IH2]; cbn.
  - constructor.
  - destruct (f x); auto.
  - destruct (f x), (f y); auto using perm_swap.
  - now transitivity (filter f ys).
Qed.

Lemma distinct_prices_app (xs ys : list Property) :
  distinct_prices (xs ++ ys) -> distinct_prices xs /\ distinct_prices ys.
Proof.
  unfold distinct_prices. induction xs as [|x xs IH]; cbn; intros H.
  - split; [constructor | assumption].
  - inversion H as [|? ? Hx Hrest]; subst.
    destruct (IH Hrest) as [Hxs Hys]. split; [|assumption].
    constructor; [|assumption].
    intros Hin. apply Hx. apply InA_app_iff. now left.
Qed.

(** On a tree that keeps the order invariant and holds no price twice, the
    pruned search meets exactly the listings in range. *)
Lemma search_by_price_range_distinct (t : BST) (a b : Q) :
  bst_ordered t -> distinct_prices (preorder t) ->
  search_by_price_range t a b [] = filter (price_in_range a b) (preorder t).
Proof.
  induction t as [|p l IHl r IHr]; [reflexivity|].
  intros (Hl & Hr & Ol & Or) Hd.
  rewrite search_by_price_range_node.
  change (preorder (BSTNode p l r)) with ([p] ++ preorder l ++ preorder r).
  rewrite !filter_app.
  inversion Hd as [|? ? Hp Hrest]; subst.
  destruct (distinct_prices_app _ _ Hrest) as [Dl Dr].
  f_equal. f_equal.
  - price_cases; [now apply IHl|].
    symmetry. apply filter_none.
    eapply Forall_impl; [|exact Hl]. cbn. intros x Hx.
    apply in_range_false_iff. left. lra.
  - price_cases; [now apply IHr|].
    symmetry. apply filter_none.
    rewrite Forall_forall in Hr |- *. intros x Hx.
    apply in_range_false_iff. right.
    specialize (Hr x Hx).
    assert (Hne : ~ latestPrice p == latestPrice x).
    { intros Heq. apply Hp. apply InA_app_iff. right.
      apply InA_alt. exists x. split; [exact Heq | exact Hx]. }
    destruct (Qlt_le_dec (latestPrice p) (latestPrice x)) as [Hlt|Hle]; [lra|].
    exfalso. apply Hne. apply Qle_antisym; assumption.
Qed.

Lemma distinct_prices_perm (xs ys : list Property) :
  Permutation xs ys -> distinct_prices xs -> distinct_prices ys.
Proof.
  intros HP Hd. unfold distinct_prices in *.
  exact (PermutationA_preserves_NoDupA same_price_equiv
           (Permutation_PermutationA same_price_equiv HP) Hd).
Qed.

Lemma distinct_pricesb_sound (ps : list Property) :
  distinct_pricesb ps = true -> distinct_prices ps.
Proof.
  unfold distinct_prices. induction ps as [|p ps IH]; cbn.
  - constructor.
  - rewrite andb_true_iff, forallb_forall. intros [Hp Hps].
    constructor; [|now apply IH].
    intros Hin. apply InA_alt in Hin. destruct Hin as (q & Heq & Hq).
    specialize (Hp q Hq). apply negb_true_iff in Hp.
    apply Qeq_bool_neq in Hp. now apply Hp.
Qed.

Lemma search_by_price_range_inverted (t : BST) (a b : Q) :
  b < a -> search_by_price_range t a b [] = [].
Proof.
  intros Hab. induction t as [|p l IHl r IHr]; [reflexivity|].
  rewrite search_by_price_range_node, IHl, IHr.
  price_cases; try reflexivity; lra.
Qed.

(** ** The claims *)

(** C4.  Every tree produced by [build_price_bst] keeps the order invariant
    (strictly smaller prices in the left subtree, greater or equal prices in
    the right subtree, at every node), and [insert_bst] preserves it. *)
Theorem build_price_bst_ordered (s : RealEstateAnalyzer) :
  bst_ordered (price_bst_root (snd (build_price_bst s))) /\
  (forall (t : BST) (p : Property),
      bst_ordered t -> bst_ordered (insert_bst t p)).
Proof.
  split.
  - rewrite build_price_bst_run. cbn.
    apply bst_ordered_fold_insert. exact I.
  - exact bst_ordered_insert_bst.
Qed.

(** The invariant on the tree of the three sample listings, and after one
    more insertion into it. *)
Lemma build_price_bst_ordered_witness :
  bst_ordered (price_bst_root (built scenario)) /\
  bst_ordered (insert_bst (price_bst_root (built scenario)) twin1).
Proof.
  destruct (build_price_bst_ordered (loaded [scenario])) as [Hb Hi].
  split; [exact Hb | apply Hi; exact Hb].
Defined.

(** C8.  With inverted bounds (the maximum below the minimum) the range
    query returns the empty list on every tree, and on an empty tree it
    returns the empty list for every pair of bounds, without raising. *)
Theorem find_properties_in_price_range_empty
    (s : RealEstateAnalyzer) (min_price max_price : Q) :
  (max_price < min_price ->
   fst (find_properties_in_price_range min_price max_price s) = Returns []) /\
  (price_bst_root s = Nil ->
   fst (find_properties_in_price_range min_price max_price s) = Returns []).
Proof.
  rewrite find_properties_in_price_range_run. cbn. split.
  - intros H. now rewrite search_by_price_range_inverted.
  - intros H. now rewrite H.
Qed.

(** Inverted bounds on the sample tree; any bounds on a new analyzer. *)
Lemma find_properties_in_price_range_empty_witness :
  fst (find_properties_in_price_range 300 150 (built scenario)) = Returns [] /\
  fst (find_properties_in_price_range 150 300 RealEstateAnalyzer_init)
    = Returns [].
Proof.
  split.
  - apply (proj1 (find_properties_in_price_range_empty (built scenario) 300 150)).
    reflexivity.
  - apply (proj2 (find_properties_in_price_range_empty
                    RealEstateAnalyzer_init 150 300)).
    reflexivity.
Defined.

(** C7.  Building twice in a row leaves the analyzer exactly as building
    once does: the second build starts again from the empty tree, so the
    tree, and with it every range query, is the same. *)
Theorem build_price_bst_idempotent (s : RealEstateAnalyzer) :
  let once := snd (build_price_bst s) in
  let twice := snd (build_price_bst once) in
  price_bst_root twice = price_bst_root once /\
  forall min_price max_price : Q,
    fst (find_properties_in_price_range min_price max_price twice) =
    fst (find_properties_in_price_range min_price max_price once).
Proof.
  cbv zeta. rewrite !build_price_bst_run. cbn. split; reflexivity.
Qed.

(** C3 (as the code has it).  A range query issued before any build raises
    nothing: whatever has been loaded, it returns the empty list. *)
Theorem find_properties_in_price_range_before_build
    (batches : list (list Property)) (min_price max_price : Q) :
  fst (find_properties_in_price_range min_price max_price (loaded batches))
  = Returns [].
Proof.
  rewrite find_properties_in_price_range_run. cbn.
  now rewrite loaded_root.
Qed.

(** C3, refuted as stated: with the three sample listings loaded and no
    index built, the query for [150, 300] does not raise; it returns the
    empty list although two loaded listings lie in the range. *)
Lemma find_properties_in_price_range_not_indexed :
  fst (find_properties_in_price_range 150 300 (loaded [scenario])) = Returns [] /\
  (forall e : exn,
     fst (find_properties_in_price_range 150 300 (loaded [scenario]))
     <> Raises e) /\
  filter (price_in_range 150 300) (properties (loaded [scenario]))
  = [listing2; listing3].
Proof.
  split; [reflexivity|]. split; [|reflexivity].
  intros e. discriminate.
Qed.

(** C10.  When no two listings have the same price, the range query on the
    built tree returns exactly the listings whose price lies in the bounds,
    each one once. *)
Theorem range_query_distinct_prices
    (s : RealEstateAnalyzer) (min_price max_price : Q) :
  distinct_prices (properties s) ->
  min_price <= max_price ->
  exists results : list Property,
    fst (find_properties_in_price_range min_price max_price
           (snd (build_price_bst s))) = Returns results /\
    Permutation results
      (filter (price_in_range min_price max_price) (properties s)).
Proof.
  intros Hd _. rewrite build_price_bst_run, find_properties_in_price_range_run.
  cbn. eexists. split; [reflexivity|].
  assert (HP : Permutation (preorder (fold_left insert_bst (properties s) Nil))
                           (properties s)).
  { now rewrite preorder_fold_insert. }
  rewrite search_by_price_range_distinct.
  - now apply Permutation_filter.
  - apply bst_ordered_fold_insert. exact I.
  - apply distinct_prices_perm with (xs := properties s);
      [now symmetry | exact Hd].
Qed.

(** The three sample listings have distinct prices. *)
Lemma range_query_distinct_prices_witness :
  exists results : list Property,
    fst (find_properties_in_price_range 150 300
           (snd (build_price_bst (loaded [scenario])))) = Returns results /\
    Permutation results
      (filter (price_in_range 150 300) (properties (loaded [scenario]))).
Proof.
  apply (range_query_distinct_prices (loaded [scenario]) 150 300).
  - apply distinct_pricesb_sound. reflexivity.
  - discriminate.
Defined.

(** C2 (as the code has it).  The range query returns the listings in the
    order the search meets them, each node before its left subtree and the
    left subtree before the right one: the result is a subsequence of the
    pre-order traversal of the built tree, and every returned listing lies in
    the bounds. *)
Theorem range_query_preorder
    (s : RealEstateAnalyzer) (min_price max_price : Q) :
  exists results : list Property,
    fst (find_properties_in_price_range min_price max_price
           (snd (build_price_bst s))) = Returns results /\
    subseq results (preorder (price_bst_root (snd (build_price_bst s)))) /\
    Forall (fun p => price_in_range min_price max_price p = true) results.
Proof.
  rewrite find_properties_in_price_range_run. cbn.
  eexists. split; [reflexivity|]. split.
  - apply search_by_price_range_subseq.
  - apply search_by_price_range_in_range.
Qed.

(** C2, refuted as stated: on the three sample listings the query for
    [150, 300] returns the listing priced 300 before the one priced 200. *)
Lemma range_query_not_ascending :
  fst (find_properties_in_price_range 150 300 (built scenario))
  = Returns [listing2; listing3] /\
  ~ ascending [listing2; listing3].
Proof.
  split; [reflexivity|].
  intros H. inversion H as [|x xs _ Hall]; subst.
  inversion Hall as [|y ys Hle _]; subst.
  unfold Qle in Hle. cbn in Hle. lia.
Qed.

(** C1, on two listings of equal price: both lie in [200000, 250000], yet
    the range query on the built tree returns only the first, so the result
    is not the sub-multiset of the listings in range.  The right subtree of a
    node is searched only when the upper bound is strictly above the node's
    price, and that subtree is where [insert_bst] puts an equal price. *)
Lemma range_query_drops_equal_price :
  fst (find_properties_in_price_range 200000 250000 (built twins))
  = Returns [twin1] /\
  filter (price_in_range 200000 250000) twins = [twin1; twin2] /\
  ~ Permutation [twin1] (filter (price_in_range 200000 250000) twins).
Proof.
  split; [reflexivity|]. split; [reflexivity|].
  intros H. apply Permutation_length in H. discriminate.
Qed.

(** ** Dictionaries: lookup after update *)

Section DictFacts.
Context {K V : Type} (eqb : K -> K -> bool).
Hypothesis eqb_eq : forall k k' : K, eqb k k' = true <-> k = k'.

Lemma dict_get_dd_update_same (dflt : V) (k : K) (f : V -> V) (d : dict K V) :
  dict_get eqb k (dd_update eqb dflt k f d) =
  Some (f (match dict_get eqb k d with Some v => v | None => dflt end)).
Proof.
  induction d as [|[k' v] d IH]; cbn.
  - assert (E : eqb k k = true) by now apply eqb_eq.
    now rewrite E.
  - destruct (eqb k' k) eqn:E; cbn; rewrite E; [reflexivity | exact IH].
Qed.

Lemma dict_get_dd_update_other (dflt : V) (k c : K) (f : V -> V) (d : dict K V) :
  k <> c ->
  dict_get eqb c (dd_update eqb dflt k f d) = dict_get eqb c d.
Proof.
  intros Hne. induction d as [|[k' v] d IH]; cbn.
  - destruct (eqb k c) eqn:E; [|reflexivity].
    apply eqb_eq in E. contradiction.
  - destruct (eqb k' k) eqn:E; cbn.
    + apply eqb_eq in E. subst k'.
      destruct (eqb k c) eqn:E'; [|reflexivity].
      apply eqb_eq in E'. contradiction.
    + now rewrite IH.
Qed.

Lemma dict_get_In (c : K) (v : V) (d : dict K V) :
  dict_get eqb c d = Some v -> In (c, v) d.
Proof.
  induction d as [|[k' v'] d IH]; cbn; [discriminate|].
  destruct (eqb k' c) eqn:E.
  - intros [= ->]. apply eqb_eq in E. subst. now left.
  - intros H. right. now apply IH.
Qed.

Lemma In_dict_get (c : K) (v : V) (d : dict K V) :
  NoDup (map fst d) -> In (c, v) d -> dict_get eqb c d = Some v.
Proof.
  induction d as [|[k' v'] d IH]; cbn; [contradiction|].
  intros Hnd [Heq|Hin].
  - injection Heq as -> ->.
    assert (E : eqb c c = true) by now apply eqb_eq.
    now rewrite E.
  - inversion Hnd as [|? ? Hk Hd]; subst.
    destruct (eqb k' c) eqn:E.
    + apply eqb_eq in E. subst. exfalso. apply Hk.
      change c with (fst (c, v)). now apply in_map.
    + now apply IH.
Qed.

Lemma dd_update_keys (dflt : V) (k : K) (f : V -> V) (d : dict K V) (c : K) :
  In c (map fst (dd_update eqb dflt k f d)) <-> In c (map fst d) \/ c = k.
Proof.
  induction d as [|[k' v] d IH]; cbn.
  - intuition auto.
  - destruct (eqb k' k) eqn:E; cbn.
    + apply eqb_eq in E. subst. intuition auto.
    + rewrite IH. intuition auto.
Qed.

Lemma dd_update_NoDup (dflt : V) (k : K) (f : V -> V) (d : dict K V) :
  NoDup (map fst d) -> NoDup (map fst (dd_update eqb dflt k f d)).
Proof.
  induction d as [|[k' v] d IH]; cbn; intros Hnd.
  - constructor; [intros [] | constructor].
  - inversion Hnd as [|? ? Hk Hd]; subst.
    destruct (eqb k' k) eqn:E; cbn.
    + now constructor.
    + constructor; [|now apply IH].
      rewrite dd_update_keys. intros [Hin| ->]; [contradiction|].
      assert (E' : eqb k k = true) by now apply eqb_eq.
      congruence.
Qed.

Lemma dd_update_Forall (P : V -> Prop) (dflt : V) (k : K) (f : V -> V)
    (d : dict K V) :
  (forall v, P (f v)) ->
  Forall (fun kv => P (snd kv)) d ->
  Forall (fun kv => P (snd kv)) (dd_update eqb dflt k f d).
Proof.
  intros Hf. induction 1 as [|[k' v] d Hv Hd IH]; cbn.
  - repeat constructor. apply Hf.
  - destruct (eqb k' k); constructor; cbn; auto.
Qed.
End DictFacts.

(** ** Grouping by city *)


Lemma location_prices_snoc (ps : list Property) (p : Property) :
  location_prices (ps ++ [p]) =
  dd_update String.eqb [] (city p) (append_price (latestPrice p))
    (location_prices ps).
Proof. unfold location_prices. now rewrite fold_left_app. Qed.

Lemma prices_of_city_snoc (c : string) (ps : list Property) (p : Property) :
  prices_of_city c (ps ++ [p]) =
  prices_of_city c ps ++
  (if String.eqb (city p) c then [latestPrice p] else []).
Proof.
  unfold prices_of_city. rewrite filter_app, map_app. cbn.
  now destruct (String.eqb (city p) c).
Qed.

Lemma prices_of_city_nonempty (c : string) (ps : list Property) :
  In c (map city ps) <-> prices_of_city c ps <> [].
Proof.
  unfold prices_of_city. induction ps as [|p ps IH]; cbn.
  - intuition congruence.
  - destruct (String.eqb (city p) c) eqn:E; cbn.
    + apply String.eqb_eq in E. intuition congruence.
    + apply String.eqb_neq in E. rewrite <- IH. intuition congruence.
Qed.


Lemma location_prices_get (c : string) (ps : list Property) :
  dict_get String.eqb c (location_prices ps) =
  match prices_of_city c ps with
  | [] => None
  | x :: xs => Some (x :: xs)
  end.
Proof.
  induction ps as [|p ps IH] using rev_ind; [reflexivity|].
  rewrite location_prices_snoc, prices_of_city_snoc.
  destruct (String.eqb (city p) c) eqn:E.
  - apply String.eqb_eq in E. subst c.
    rewrite (dict_get_dd_update_same String.eqb String.eqb_eq), IH.
    now destruct (prices_of_city (city p) ps).
  - apply String.eqb_neq in E.
    rewrite (dict_get_dd_update_other String.eqb String.eqb_eq) by exact E.
    now rewrite IH, app_nil_r.
Qed.

Lemma location_prices_NoDup (ps : list Property) :
  NoDup (map fst (location_prices ps)).
Proof.
  induction ps as [|p ps IH] using rev_ind; [constructor|].
  rewrite location_prices_snoc.
  now apply (dd_update_NoDup String.eqb String.eqb_eq).
Qed.

Lemma location_prices_entry (c : string) (l : list Q) (ps : list Property) :
  In (c, l) (location_prices ps) -> l = prices_of_city c ps /\ l <> [].
Proof.
  intros Hin.
  apply (In_dict_get String.eqb String.eqb_eq) in Hin;
    [|apply location_prices_NoDup].
  rewrite location_prices_get in Hin.
  destruct (prices_of_city c ps); [discriminate|].
  injection Hin as <-. split; [reflexivity | discriminate].
Qed.

(** ** Means of the groups *)

Lemma mean_items_returns {K} (d : dict K (list Q)) :
  Forall (fun kv => snd kv <> []) d ->
  mean_items d = Returns (map (fun kv => (fst kv, mean_value (snd kv))) d).
Proof.
  induction 1 as [|[k l] d Hl _ IH]; cbn; [reflexivity|].
  destruct l as [|x l]; [now contradiction Hl|].
  now rewrite IH.
Qed.

Lemma dict_get_means {K} (eqb : K -> K -> bool) (c : K) (d : dict K (list Q)) :
  dict_get eqb c (map (fun kv => (fst kv, mean_value (snd kv))) d) =
  option_map mean_value (dict_get eqb c d).
Proof.
  induction d as [|[k l] d IH]; cbn; [reflexivity|].
  now destruct (eqb k c).
Qed.




(** C5 (as the code has it).  On the three sample listings, whatever their
    bedroom counts, after the build: the range query for [150, 300] returns
    listing 2 and then listing 3; the averages by city are 150 for A and
    300 for B; the trends are 100 for A and 300 for B in 2020 and 200 for A
    in 2021, with no entry for B in 2021. *)
Theorem sample_scenario (n1 n2 n3 : Z) :
  let l1 := mkProperty "1" 100 n1 "A" 2020 in
  let l2 := mkProperty "2" 300 n2 "B" 2020 in
  let l3 := mkProperty "3" 200 n3 "A" 2021 in
  let s := built [l1; l2; l3] in
  fst (find_properties_in_price_range 150 300 s) = Returns [l2; l3] /\
  (exists avg_prices : dict string Q,
      fst (calculate_average_price_by_location s) = Returns avg_prices /\
      dict_equiv avg_prices [("A"%string, 150); ("B"%string, 300)]) /\
  (exists (trends : dict Z (dict string Q)) (y2021 : dict string Q),
      fst (find_trends s) = Returns trends /\
      trends = [(2020%Z, [("A"%string, 100); ("B"%string, 300)]);
                (2021%Z, [("A"%string, 200)])] /\
      dict_get Z.eqb 2021%Z trends = Some y2021 /\
      dict_get String.eqb "B"%string y2021 = None).
Proof.
  cbv zeta. split; [reflexivity|]. split.
  - eexists. split; [reflexivity|].
    repeat constructor; cbn; reflexivity.
  - eexists. eexists. repeat split.
Qed.

(** C5, refuted as stated: the range query for [150, 300] on the three
    sample listings returns listing 2 first, not listing 3 followed by
    listing 2. *)
Lemma sample_scenario_order :
  fst (find_properties_in_price_range 150 300 (built scenario))
  = Returns [listing2; listing3] /\
  fst (find_properties_in_price_range 150 300 (built scenario))
  <> Returns [listing3; listing2].
Proof.
  split; [reflexivity | discriminate].
Qed.

(** ** What the range search returns on any collection *)

Lemma top_at_insert_bst (b : Q) (t : BST) (p : Property) :
  top_at b (insert_bst t p) =
  match top_at b t with
  | [] => if Qeq_bool (latestPrice p) b then [p] else []
  | found => found
  end.
Proof.
  induction t as [|q l IHl r IHr]; cbn.
  - destruct (Qeq_bool (latestPrice p) b); [reflexivity|].
    now destruct (Qlt_bool b (latestPrice p)).
  - destruct (Qlt_bool (latestPrice p) (latestPrice q)) eqn:Epq; cbn;
      destruct (Qeq_bool (latestPrice q) b) eqn:Eqb; try reflexivity;
      destruct (Qlt_bool b (latestPrice q)) eqn:Ebq; try assumption.
    + destruct (top_at b r); [|reflexivity].
      destruct (Qeq_bool (latestPrice p) b) eqn:Epb; [|reflexivity].
      apply Qeq_bool_iff in Epb. apply Qeq_bool_neq in Eqb.
      apply Qlt_bool_iff in Epq. apply Qlt_bool_false_iff in Ebq.
      exfalso. lra.
    + destruct (top_at b l); [|reflexivity].
      destruct (Qeq_bool (latestPrice p) b) eqn:Epb; [|reflexivity].
      apply Qeq_bool_iff in Epb.
      apply Qlt_bool_false_iff in Epq. apply Qlt_bool_iff in Ebq.
      exfalso. lra.
Qed.

Lemma top_at_fold_insert (b : Q) (ps : list Property) (t : BST) :
  top_at b (fold_left insert_bst ps t) =
  match top_at b t with
  | [] => first_at b ps
  | found => found
  end.
Proof.
  revert t. induction ps as [|p ps IH]; intros t; cbn.
  - now destruct (top_at b t).
  - rewrite IH, top_at_insert_bst.
    destruct (top_at b t); [|reflexivity].
    now destruct (Qeq_bool (latestPrice p) b).
Qed.

Lemma top_at_none (b : Q) (t : BST) :
  Forall (fun x => ~ latestPrice x == b) (preorder t) -> top_at b t = [].
Proof.
  induction t as [|p l IHl r IHr]; cbn; [reflexivity|].
  intros H. inversion H as [|? ? Hp Hrest]; subst.
  apply Forall_app in Hrest. destruct Hrest as [Hl Hr].
  destruct (Qeq_bool (latestPrice p) b) eqn:E.
  - apply Qeq_bool_iff in E. contradiction.
  - destruct (Qlt_bool b (latestPrice p)); auto.
Qed.

(** On an ordered tree the search returns the listings priced from [a] up
    to, not including, [b], and of those priced [b] only the topmost. *)
Lemma search_by_price_range_ordered (t : BST) (a b : Q) :
  a <= b -> bst_ordered t ->
  Permutation (search_by_price_range t a b [])
              (top_at b t ++ filter (price_below a b) (preorder t)).
Proof.
  intros Hab. induction t as [|p l IHl r IHr]; [reflexivity|].
  intros (Hl & Hr & Ol & Or).
  specialize (IHl Ol). specialize (IHr Or).
  rewrite search_by_price_range_node.
  change (preorder (BSTNode p l r)) with ([p] ++ preorder l ++ preorder r).
  rewrite !filter_app.
  assert (Tl : latestPrice p <= b -> top_at b l = []).
  { intros Hpb. apply top_at_none.
    eapply Forall_impl; [|exact Hl]. cbn. intros x Hx Heq. lra. }
  assert (Tr : b < latestPrice p -> top_at b r = []).
  { intros Hpb. apply top_at_none.
    eapply Forall_impl; [|exact Hr]. cbn. intros x Hx Heq. lra. }
  assert (Fl : latestPrice p <= a -> filter (price_below a b) (preorder l) = []).
  { intros Hpa. apply filter_none.
    eapply Forall_impl; [|exact Hl]. cbn. intros x Hx.
    unfold price_below. apply andb_false_iff. left.
    apply Qle_bool_false_iff. lra. }
  assert (Fr : b <= latestPrice p -> filter (price_below a b) (preorder r) = []).
  { intros Hpb. apply filter_none.
    eapply Forall_impl; [|exact Hr]. cbn. intros x Hx.
    unfold price_below. apply andb_false_iff. right.
    apply Qlt_bool_false_iff. lra. }
  cbn [top_at filter]. unfold price_below at 1.
  destruct (Qeq_bool (latestPrice p) b) eqn:Epb.
  - apply Qeq_bool_iff in Epb.
    assert (E1 : in_range a b (latestPrice p) = true)
      by (apply in_range_iff; lra).
    assert (E2 : Qlt_bool (latestPrice p) b = false)
      by (apply Qlt_bool_false_iff; lra).
    rewrite E1, E2, andb_false_r, Fr, !app_nil_r by lra. cbn.
    constructor.
    destruct (Qlt_bool a (latestPrice p)) eqn:E3.
    + rewrite IHl, Tl by lra. reflexivity.
    + apply Qlt_bool_false_iff in E3. rewrite Fl by lra. reflexivity.
  - apply Qeq_bool_neq in Epb.
    destruct (Qlt_bool b (latestPrice p)) eqn:Ebp.
    + apply Qlt_bool_iff in Ebp.
      assert (E1 : in_range a b (latestPrice p) = false)
        by (apply in_range_false_iff; lra).
      assert (E2 : Qlt_bool (latestPrice p) b = false)
        by (apply Qlt_bool_false_iff; lra).
      assert (E3 : Qlt_bool a (latestPrice p) = true)
        by (apply Qlt_bool_iff; lra).
      rewrite E1, E2, E3, andb_false_r, Fr, !app_nil_r by lra. cbn.
      exact IHl.
    + apply Qlt_bool_false_iff in Ebp.
      assert (E2 : Qlt_bool (latestPrice p) b = true).
      { apply Qlt_bool_iff. destruct (Qlt_le_dec (latestPrice p) b); [assumption|].
        exfalso. apply Epb. now apply Qle_antisym. }
      rewrite E2, andb_true_r. apply Qlt_bool_iff in E2.
      destruct (Qle_bool a (latestPrice p)) eqn:E4.
      * apply Qle_bool_iff in E4.
        assert (E1 : in_range a b (latestPrice p) = true)
          by (apply in_range_iff; lra).
        rewrite E1, IHr. cbn.
        rewrite <- Permutation_middle. constructor.
        destruct (Qlt_bool a (latestPrice p)) eqn:E3.
        -- rewrite IHl, Tl by lra. cbn.
           rewrite !app_assoc. apply Permutation_app_tail.
           apply Permutation_app_comm.
        -- apply Qlt_bool_false_iff in E3. rewrite Fl by lra. reflexivity.
      * apply Qle_bool_false_iff in E4.
        assert (E1 : in_range a b (latestPrice p) = false)
          by (apply in_range_false_iff; lra).
        assert (E3 : Qlt_bool a (latestPrice p) = false)
          by (apply Qlt_bool_false_iff; lra).
        rewrite E1, E3, Fl by lra. cbn. exact IHr.
Qed.

(** The range query on any collection: the listings priced from the lower
    bound up to, not including, the upper bound, and of the listings priced
    exactly at the upper bound only the one loaded first. *)
Theorem range_query_any_prices
    (s : RealEstateAnalyzer) (min_price max_price : Q) :
  min_price <= max_price ->
  exists results : list Property,
    fst (find_properties_in_price_range min_price max_price
           (snd (build_price_bst s))) = Returns results /\
    Permutation results
      (first_at max_price (properties s) ++
       filter (price_below min_price max_price) (properties s)).
Proof.
  intros Hab. rewrite build_price_bst_run, find_properties_in_price_range_run.
  cbn. eexists. split; [reflexivity|].
  rewrite search_by_price_range_ordered;
    [|exact Hab | apply bst_ordered_fold_insert; exact I].
  rewrite top_at_fold_insert. cbn.
  apply Permutation_app_head, Permutation_filter.
  now rewrite preorder_fold_insert.
Qed.

(** On the two listings of equal price, only the first is returned. *)
Lemma range_query_any_prices_witness :
  exists results : list Property,
    fst (find_properties_in_price_range 200000 250000 (built twins))
    = Returns results /\
    Permutation results [twin1].
Proof.
  apply (range_query_any_prices (loaded [twins]) 200000 250000).
  discriminate.
Defined.

(** ** Further properties of the tree *)

Lemma StronglySorted_snoc {A} (R : A -> A -> Prop) (l : list A) (x : A) :
  StronglySorted R (l ++ [x]) <->
  StronglySorted R l /\ Forall (fun y => R y x) l.
Proof.
  induction l as [|a l IH]; cbn.
  - split; [intros _; split; constructor | intros _; repeat constructor].
  - split.
    + intros H. inversion H as [|? ? Hs Hall]; subst.
      apply IH in Hs. destruct Hs as [Hs Hx].
      apply Forall_app in Hall. destruct Hall as [Hl Hax].
      inversion Hax; subst.
      split; constructor; assumption.
    + intros [Hs Hall]. inversion Hs as [|? ? Hs' Hl]; subst.
      inversion Hall as [|? ? Hax Hx]; subst.
      constructor.
      * apply IH. now split.
      * apply Forall_app. split; [assumption | now repeat constructor].
Qed.

Lemma StronglySorted_app {A} (R : A -> A -> Prop) (l1 l2 : list A) :
  StronglySorted R l1 -> StronglySorted R l2 ->
  (forall x y, In x l1 -> In y l2 -> R x y) ->
  StronglySorted R (l1 ++ l2).
Proof.
  intros H1 H2 H. induction H1 as [|a l1 Hs IH Hall]; cbn; [assumption|].
  constructor.
  - apply IH. intros x y Hx Hy. apply H; [now right | assumption].
  - apply Forall_app. split; [assumption|].
    apply Forall_forall. intros y Hy. apply H; [now left | assumption].
Qed.

Lemma inorder_preorder (t : BST) : Permutation (inorder t) (preorder t).
Proof.
  induction t as [|p l IHl r IHr]; cbn; [reflexivity|].
  rewrite <- Permutation_middle, IHl, IHr. reflexivity.
Qed.

Lemma insert_into_right_spine (ps : list Property) (p : Property) :
  Forall (fun x => latestPrice x <= latestPrice p) ps ->
  insert_bst (right_spine ps) p = right_spine (ps ++ [p]).
Proof.
  induction 1 as [|x ps Hx _ IH]; cbn; [reflexivity|].
  apply Qlt_bool_false_iff in Hx. now rewrite Hx, IH.
Qed.

Lemma sort_insert_before (p q : Property) (xs ys : list Property) :
  Qlt_bool (latestPrice p) (latestPrice q) = true ->
  sort_insert p (xs ++ q :: ys) = sort_insert p xs ++ q :: ys.
Proof.
  intros H. induction xs as [|x xs IH]; cbn.
  - now rewrite H.
  - destruct (Qlt_bool (latestPrice p) (latestPrice x)); [reflexivity|].
    now rewrite IH.
Qed.

Lemma sort_insert_after (p : Property) (xs ys : list Property) :
  Forall (fun x => latestPrice x <= latestPrice p) xs ->
  sort_insert p (xs ++ ys) = xs ++ sort_insert p ys.
Proof.
  induction 1 as [|x xs Hx _ IH]; cbn; [reflexivity|].
  apply Qlt_bool_false_iff in Hx. now rewrite Hx, IH.
Qed.

Lemma inorder_insert_bst (t : BST) (p : Property) :
  bst_ordered t -> inorder (insert_bst t p) = sort_insert p (inorder t).
Proof.
  induction t as [|q l IHl r IHr]; cbn; [reflexivity|].
  intros (Hl & Hr & Ol & Or).
  destruct (Qlt_bool (latestPrice p) (latestPrice q)) eqn:E; cbn.
  - rewrite IHl by assumption. symmetry. now apply sort_insert_before.
  - rewrite IHr by assumption. apply Qlt_bool_false_iff in E.
    change (inorder l ++ q :: inorder r) with (inorder l ++ [q] ++ inorder r).
    rewrite app_assoc, sort_insert_after.
    + now rewrite <- app_assoc.
    + apply Forall_app. split.
      * eapply Permutation_Forall; [symmetry; apply inorder_preorder|].
        eapply Forall_impl; [|exact Hl]. cbn. intros x Hx. lra.
      * now repeat constructor.
Qed.

Lemma inorder_fold_insert (ps : list Property) (t : BST) :
  bst_ordered t ->
  inorder (fold_left insert_bst ps t) =
  fold_left (fun sorted p => sort_insert p sorted) ps (inorder t).
Proof.
  revert t. induction ps as [|p ps IH]; intros t Ht; cbn; [reflexivity|].
  rewrite IH by now apply bst_ordered_insert_bst.
  now rewrite inorder_insert_bst.
Qed.

Lemma bst_ordered_inorder_ascending (t : BST) :
  bst_ordered t -> ascending (inorder t).
Proof.
  unfold ascending.
  induction t as [|p l IHl r IHr]; cbn; [constructor|].
  intros (Hl & Hr & Ol & Or).
  assert (Hl' : Forall (fun x => latestPrice x < latestPrice p) (inorder l)).
  { eapply Permutation_Forall; [symmetry; apply inorder_preorder | exact Hl]. }
  assert (Hr' : Forall (fun x => latestPrice p <= latestPrice x) (inorder r)).
  { eapply Permutation_Forall; [symmetry; apply inorder_preorder | exact Hr]. }
  apply StronglySorted_app; auto.
  - constructor; auto.
  - rewrite Forall_forall in Hl', Hr'.
    intros x y Hx [<-|Hy].
    + specialize (Hl' x Hx). cbn in Hl'. lra.
    + specialize (Hl' x Hx). specialize (Hr' y Hy). cbn in Hl', Hr'. lra.
Qed.

(** X1.  [insert_bst] adds the listing as one new node and loses none: the
    listings of the new tree are the new listing and those of the old tree;
    and a tree that already has a root keeps it. *)
Theorem insert_bst_adds_one (t : BST) (p : Property) :
  Permutation (preorder (insert_bst t p)) (p :: preorder t) /\
  (forall (q : Property) (l r : BST),
      t = BSTNode q l r ->
      exists l' r', insert_bst t p = BSTNode q l' r').
Proof.
  split; [apply preorder_insert_bst|].
  intros q l r ->. cbn.
  destruct (Qlt_bool (latestPrice p) (latestPrice q)); eauto.
Qed.

Lemma insert_bst_adds_one_witness :
  Permutation (preorder (insert_bst (price_bst_root (built scenario)) twin1))
              (twin1 :: preorder (price_bst_root (built scenario))) /\
  exists l' r',
    insert_bst (price_bst_root (built scenario)) twin1 = BSTNode listing1 l' r'.
Proof.
  destruct (insert_bst_adds_one (price_bst_root (built scenario)) twin1)
    as [HP Hroot].
  split; [exact HP|].
  eapply Hroot. reflexivity.
Defined.

(** X2.  [build_price_bst] leaves the listing collection as it is and makes
    a tree that holds exactly the collection, one node per listing, listings
    of equal price included; it raises nothing. *)
Theorem build_price_bst_contents (s : RealEstateAnalyzer) :
  fst (build_price_bst s) = Returns tt /\
  properties (snd (build_price_bst s)) = properties s /\
  Permutation (preorder (price_bst_root (snd (build_price_bst s))))
              (properties s).
Proof.
  rewrite build_price_bst_run. cbn. repeat split.
  now rewrite preorder_fold_insert.
Qed.

(** X3.  On a collection that is already in non-decreasing price order the
    built tree is a single chain of right children, as deep as the
    collection is long. *)
Theorem build_price_bst_ascending_input (s : RealEstateAnalyzer) :
  ascending (properties s) ->
  price_bst_root (snd (build_price_bst s)) = right_spine (properties s).
Proof.
  rewrite build_price_bst_run. cbn. unfold ascending.
  induction (properties s) as [|p ps IH] using rev_ind; [reflexivity|].
  intros H. apply StronglySorted_snoc in H. destruct H as [Hs Hall].
  rewrite fold_left_app. cbn. rewrite IH by assumption.
  now apply insert_into_right_spine.
Qed.

Lemma build_price_bst_ascending_input_witness :
  price_bst_root (snd (build_price_bst (loaded [[listing1; listing3; listing2]])))
  = right_spine [listing1; listing3; listing2].
Proof.
  apply (build_price_bst_ascending_input (loaded [[listing1; listing3; listing2]])).
  repeat constructor; cbn; discriminate.
Defined.

(** X4.  Read from left to right, the built tree lists the collection in
    non-decreasing price order, listings of equal price in the order they
    were loaded. *)
Theorem build_price_bst_inorder (s : RealEstateAnalyzer) :
  let t := price_bst_root (snd (build_price_bst s)) in
  inorder t = price_sort (properties s) /\
  ascending (inorder t) /\
  Permutation (inorder t) (properties s).
Proof.
  cbv zeta. rewrite build_price_bst_run. cbn. repeat split.
  - now rewrite inorder_fold_insert.
  - apply bst_ordered_inorder_ascending, bst_ordered_fold_insert. exact I.
  - now rewrite inorder_preorder, preorder_fold_insert.
Qed.

(** ** Further properties of the range search *)

Lemma first_at_filter (b : Q) (ps : list Property) :
  (length (filter (fun p => Qeq_bool (latestPrice p) b) ps) <= 1)%nat ->
  first_at b ps = filter (fun p => Qeq_bool (latestPrice p) b) ps.
Proof.
  induction ps as [|p ps IH]; cbn; [reflexivity|].
  destruct (Qeq_bool (latestPrice p) b) eqn:E; cbn; [|exact IH].
  intros H.
  destruct (filter (fun p0 => Qeq_bool (latestPrice p0) b) ps);
    [reflexivity | cbn in H; lia].
Qed.

Lemma filter_in_range_split (a b : Q) (ps : list Property) :
  a <= b ->
  Permutation (filter (price_in_range a b) ps)
              (filter (fun p => Qeq_bool (latestPrice p) b) ps ++
               filter (price_below a b) ps).
Proof.
  intros Hab. induction ps as [|p ps IH]; cbn; [reflexivity|].
  unfold price_in_range at 1, in_range, price_below at 1.
  destruct (Qeq_bool (latestPrice p) b) eqn:Eb.
  - apply Qeq_bool_iff in Eb.
    assert (E1 : Qle_bool a (latestPrice p) = true) by (apply Qle_bool_iff; lra).
    assert (E2 : Qle_bool (latestPrice p) b = true) by (apply Qle_bool_iff; lra).
    assert (E3 : Qlt_bool (latestPrice p) b = false)
      by (apply Qlt_bool_false_iff; lra).
    rewrite E1, E2, E3. cbn. now constructor.
  - apply Qeq_bool_neq in Eb.
    destruct (Qle_bool a (latestPrice p)) eqn:E1; cbn; [|exact IH].
    destruct (Qlt_bool (latestPrice p) b) eqn:E3.
    + apply Qlt_bool_iff in E3.
      assert (E2 : Qle_bool (latestPrice p) b = true) by (apply Qle_bool_iff; lra).
      rewrite E2. rewrite <- Permutation_middle. now constructor.
    + apply Qlt_bool_false_iff in E3.
      assert (E2 : Qle_bool (latestPrice p) b = false).
      { apply Qle_bool_false_iff.
        destruct (Qlt_le_dec b (latestPrice p)); [assumption|].
        exfalso. apply Eb. now apply Qle_antisym. }
      rewrite E2. exact IH.
Qed.

(** X5.  [search_by_price_range] only appends: the list it is given comes
    back as the front of the result, followed by what the same search finds
    when it starts from an empty list. *)
Theorem search_by_price_range_appends
    (root : BST) (min_price max_price : Q) (results : list Property) :
  search_by_price_range root min_price max_price results =
  results ++ search_by_price_range root min_price max_price [].
Proof. apply search_by_price_range_acc. Qed.

(** X6.  Widening the bounds never loses a result: on any tree, what a
    search returns for [a, b] is returned, in the same order, by the search
    for every wider pair of bounds. *)
Theorem search_by_price_range_monotone (t : BST) (a b a' b' : Q) :
  a' <= a -> b <= b' ->
  subseq (search_by_price_range t a b []) (search_by_price_range t a' b' []).
Proof.
  intros Ha Hb. induction t as [|p l IHl r IHr]; [constructor|].
  rewrite !search_by_price_range_node.
  apply subseq_app; [|apply subseq_app].
  - destruct (in_range a b (latestPrice p)) eqn:E; [|apply subseq_nil_l].
    apply in_range_iff in E.
    assert (E' : in_range a' b' (latestPrice p) = true)
      by (apply in_range_iff; lra).
    rewrite E'. apply subseq_refl.
  - destruct (Qlt_bool a (latestPrice p)) eqn:E; [|apply subseq_nil_l].
    apply Qlt_bool_iff in E.
    assert (E' : Qlt_bool a' (latestPrice p) = true)
      by (apply Qlt_bool_iff; lra).
    now rewrite E'.
  - destruct (Qlt_bool (latestPrice p) b) eqn:E; [|apply subseq_nil_l].
    apply Qlt_bool_iff in E.
    assert (E' : Qlt_bool (latestPrice p) b' = true)
      by (apply Qlt_bool_iff; lra).
    now rewrite E'.
Qed.

Lemma search_by_price_range_monotone_witness :
  subseq (search_by_price_range (price_bst_root (built scenario)) 150 250 [])
         (search_by_price_range (price_bst_root (built scenario)) 100 300 []).
Proof.
  apply (search_by_price_range_monotone
           (price_bst_root (built scenario)) 150 250 100 300);
    discriminate.
Defined.

(** X8.  When at most one listing is priced exactly at the upper bound, the
    range query on the built tree returns exactly the listings in range;
    listings sharing any other price are all returned. *)
Theorem range_query_complete
    (s : RealEstateAnalyzer) (min_price max_price : Q) :
  min_price <= max_price ->
  (length (filter (fun p => Qeq_bool (latestPrice p) max_price)
                  (properties s)) <= 1)%nat ->
  exists results : list Property,
    fst (find_properties_in_price_range min_price max_price
           (snd (build_price_bst s))) = Returns results /\
    Permutation results
      (filter (price_in_range min_price max_price) (properties s)).
Proof.
  intros Hab Hone.
  rewrite build_price_bst_run, find_properties_in_price_range_run.
  cbn. eexists. split; [reflexivity|].
  rewrite search_by_price_range_ordered;
    [|exact Hab | apply bst_ordered_fold_insert; exact I].
  rewrite top_at_fold_insert. cbn.
  rewrite first_at_filter by exact Hone.
  rewrite filter_in_range_split by exact Hab.
  apply Permutation_app_head, Permutation_filter.
  now rewrite preorder_fold_insert.
Qed.

Lemma range_query_complete_witness :
  exists results : list Property,
    fst (find_properties_in_price_range 250000 300000 (built twins))
    = Returns results /\
    Permutation results [twin1; twin2].
Proof.
  apply (range_query_complete (loaded [twins]) 250000 300000).
  - discriminate.
  - cbn. lia.
Defined.

(** X9.  When [load_data] has read and converted the rows of its file, they
    stand, in order, behind the listings already held, and the tree is as it
    was: a range query after a load without a new build answers as it did
    before the load. *)
Theorem load_data_appends
    (rows : list Property) (s : RealEstateAnalyzer)
    (min_price max_price : Q) :
  let s' := snd (load_data rows s) in
  properties s' = properties s ++ rows /\
  price_bst_root s' = price_bst_root s /\
  fst (find_properties_in_price_range min_price max_price s') =
  fst (find_properties_in_price_range min_price max_price s).
Proof.
  cbv zeta. rewrite load_data_run. cbn. repeat split.
Qed.

(** ** Further properties of the grouping *)

Section DictMore.
Context {K V : Type} (eqb : K -> K -> bool).
Hypothesis eqb_eq : forall k k' : K, eqb k k' = true <-> k = k'.

Lemma dd_update_Forall_inv (P : V -> Prop) (dflt : V) (k : K) (f : V -> V)
    (d : dict K V) :
  P (f dflt) -> (forall v, P v -> P (f v)) ->
  Forall (fun kv => P (snd kv)) d ->
  Forall (fun kv => P (snd kv)) (dd_update eqb dflt k f d).
Proof.
  intros Hd Hf. induction 1 as [|[k' v] d Hv Hrest IH]; cbn.
  - repeat constructor. exact Hd.
  - destruct (eqb k' k); constructor; cbn; auto.
Qed.

Lemma dd_update_key_list (dflt : V) (k : K) (f : V -> V) (d : dict K V) :
  map fst (dd_update eqb dflt k f d) =
  if existsb (fun k' => eqb k' k) (map fst d) then map fst d
  else map fst d ++ [k].
Proof.
  induction d as [|[k' v] d IH]; cbn; [reflexivity|].
  destruct (eqb k' k); cbn; [reflexivity|].
  rewrite IH. now destruct (existsb (fun k'0 => eqb k'0 k) (map fst d)).
Qed.

Lemma dict_get_None_keys (k : K) (d : dict K V) :
  dict_get eqb k d = None <-> ~ In k (map fst d).
Proof.
  induction d as [|[k' v] d IH]; cbn; [intuition auto|].
  destruct (eqb k' k) eqn:E.
  - apply eqb_eq in E. subst. split; [discriminate | intros H; exfalso; auto].
  - rewrite IH. split.
    + intros H [Heq|Hin]; [|contradiction].
      subst. assert (E' : eqb k k = true) by now apply eqb_eq. congruence.
    + intros H Hin. apply H. now right.
Qed.
End DictMore.

Lemma yearly_location_prices_snoc (ps : list Property) (p : Property) :
  yearly_location_prices (ps ++ [p]) =
  dd_update Z.eqb [] (latest_saleyear p)
    (dd_update String.eqb [] (city p) (append_price (latestPrice p)))
    (yearly_location_prices ps).
Proof. unfold yearly_location_prices. now rewrite fold_left_app. Qed.

(** The dictionary of one year is the city grouping of that year's
    listings. *)
Lemma yearly_location_prices_get (y : Z) (ps : list Property) :
  dict_get Z.eqb y (yearly_location_prices ps) =
  match filter (fun p => Z.eqb (latest_saleyear p) y) ps with
  | [] => None
  | p :: rest => Some (location_prices (p :: rest))
  end.
Proof.
  induction ps as [|p ps IH] using rev_ind; [reflexivity|].
  rewrite yearly_location_prices_snoc, filter_app. cbn [filter].
  destruct (Z.eqb (latest_saleyear p) y) eqn:E.
  - apply Z.eqb_eq in E. subst y.
    rewrite (dict_get_dd_update_same Z.eqb Z.eqb_eq), IH.
    destruct (filter (fun p0 => Z.eqb (latest_saleyear p0) (latest_saleyear p)) ps)
      as [|q qs]; cbn [app].
    + reflexivity.
    + rewrite <- location_prices_snoc. reflexivity.
  - apply Z.eqb_neq in E.
    rewrite (dict_get_dd_update_other Z.eqb Z.eqb_eq) by exact E.
    now rewrite IH, app_nil_r.
Qed.

Lemma yearly_location_prices_NoDup (ps : list Property) :
  NoDup (map fst (yearly_location_prices ps)).
Proof.
  induction ps as [|p ps IH] using rev_ind; [constructor|].
  rewrite yearly_location_prices_snoc.
  now apply (dd_update_NoDup Z.eqb Z.eqb_eq).
Qed.

Lemma location_prices_nonempty (ps : list Property) :
  Forall (fun kv : string * list Q => snd kv <> []) (location_prices ps).
Proof.
  apply Forall_forall. intros [c l] Hin. cbn.
  now destruct (location_prices_entry c l ps Hin).
Qed.

Lemma yearly_location_prices_nonempty (ps : list Property) :
  Forall (fun kv : Z * dict string (list Q) =>
            Forall (fun cl : string * list Q => snd cl <> []) (snd kv))
         (yearly_location_prices ps).
Proof.
  induction ps as [|p ps IH] using rev_ind; [constructor|].
  rewrite yearly_location_prices_snoc.
  apply (dd_update_Forall_inv Z.eqb
           (fun d : dict string (list Q) =>
              Forall (fun cl : string * list Q => snd cl <> []) d)).
  - repeat constructor. cbn. discriminate.
  - intros d Hd.
    apply (dd_update_Forall String.eqb (fun l : list Q => l <> [])).
    + intros l. unfold append_price. now destruct l.
    + exact Hd.
  - exact IH.
Qed.

Lemma trends_of_returns (d : dict Z (dict string (list Q))) :
  Forall (fun kv : Z * dict string (list Q) =>
            Forall (fun cl : string * list Q => snd cl <> []) (snd kv)) d ->
  trends_of d =
  Returns (map (fun kv =>
                  (fst kv,
                   map (fun cl => (fst cl, mean_value (snd cl))) (snd kv))) d).
Proof.
  induction 1 as [|[y inner] d Hin _ IH]; cbn; [reflexivity|].
  cbn in Hin. now rewrite (mean_items_returns _ Hin), IH.
Qed.

Lemma dict_get_map_values {K V W} (eqb : K -> K -> bool) (g : V -> W)
    (k : K) (d : dict K V) :
  dict_get eqb k (map (fun kv => (fst kv, g (snd kv))) d) =
  option_map g (dict_get eqb k d).
Proof.
  induction d as [|[k' v] d IH]; cbn; [reflexivity|].
  now destruct (eqb k' k).
Qed.

Lemma find_trends_run (s : RealEstateAnalyzer) :
  find_trends s =
  (Returns (map (fun kv =>
                   (fst kv,
                    map (fun cl => (fst cl, mean_value (snd cl))) (snd kv)))
                (yearly_location_prices (properties s))), s).
Proof.
  unfold find_trends, bind, lift, get_properties. cbn.
  now rewrite (trends_of_returns _ (yearly_location_prices_nonempty _)).
Qed.

Lemma calculate_average_price_by_location_run (s : RealEstateAnalyzer) :
  calculate_average_price_by_location s =
  (Returns (map (fun cl => (fst cl, mean_value (snd cl)))
                (location_prices (properties s))), s).
Proof.
  unfold calculate_average_price_by_location, bind, lift, get_properties. cbn.
  now rewrite (mean_items_returns _ (location_prices_nonempty _)).
Qed.

Lemma prices_of_year_city_nonempty (y : Z) (c : string) (ps : list Property) :
  In (y, c) (map (fun p => (latest_saleyear p, city p)) ps) <->
  prices_of_year_city y c ps <> [].
Proof.
  unfold prices_of_year_city. rewrite <- prices_of_city_nonempty.
  rewrite !in_map_iff. split.
  - intros (p & Heq & Hin). injection Heq as Hy Hc.
    exists p. split; [assumption|]. apply filter_In. split; [assumption|].
    now apply Z.eqb_eq.
  - intros (p & Hc & Hin). apply filter_In in Hin. destruct Hin as [Hin Hy].
    apply Z.eqb_eq in Hy. exists p. split; [congruence | assumption].
Qed.

(** X10.  [find_trends] never raises.  For every year and city that some
    listing has together, the result holds under that year and city the sum
    of the prices of exactly the listings of that year and city divided by
    their number; a year without listings has no entry, and under a year a
    city without listings of that year has none. *)
Theorem find_trends_mean (s : RealEstateAnalyzer) :
  exists trends : dict Z (dict string Q),
    fst (find_trends s) = Returns trends /\
    (forall (y : Z) (c : string),
        In (y, c) (map (fun p => (latest_saleyear p, city p)) (properties s)) ->
        exists by_city : dict string Q,
          dict_get Z.eqb y trends = Some by_city /\
          prices_of_year_city y c (properties s) <> [] /\
          dict_get String.eqb c by_city =
          Some (py_sum (prices_of_year_city y c (properties s))
                / py_len (prices_of_year_city y c (properties s)))) /\
    (forall y : Z,
        ~ In y (map latest_saleyear (properties s)) ->
        dict_get Z.eqb y trends = None) /\
    (forall (y : Z) (c : string) (by_city : dict string Q),
        ~ In (y, c) (map (fun p => (latest_saleyear p, city p)) (properties s)) ->
        dict_get Z.eqb y trends = Some by_city ->
        dict_get String.eqb c by_city = None).
Proof.
  set (ps := properties s).
  eexists. split; [now rewrite find_trends_run|]. fold ps.
  assert (G : forall y,
             dict_get Z.eqb y
               (map (fun kv : Z * dict string (list Q) =>
                       (fst kv,
                        map (fun cl : string * list Q =>
                               (fst cl, mean_value (snd cl))) (snd kv)))
                    (yearly_location_prices ps)) =
             match filter (fun p => Z.eqb (latest_saleyear p) y) ps with
             | [] => None
             | p :: rest =>
                 Some (map (fun cl : string * list Q =>
                              (fst cl, mean_value (snd cl)))
                           (location_prices (p :: rest)))
             end).
  { intros y. rewrite dict_get_map_values, yearly_location_prices_get.
    now destruct (filter (fun p => Z.eqb (latest_saleyear p) y) ps). }
  split; [|split].
  - intros y c Hin. apply prices_of_year_city_nonempty in Hin.
    rewrite G. unfold prices_of_year_city in *.
    destruct (filter (fun p => Z.eqb (latest_saleyear p) y) ps) as [|q qs] eqn:E.
    + now contradiction Hin.
    + eexists. split; [reflexivity|]. split; [exact Hin|].
      rewrite dict_get_means, location_prices_get.
      now destruct (prices_of_city c (q :: qs)).
  - intros y Hy. rewrite G.
    destruct (filter (fun p => Z.eqb (latest_saleyear p) y) ps) as [|q qs] eqn:E;
      [reflexivity|].
    exfalso. apply Hy. apply in_map_iff. exists q.
    assert (Hq : In q (filter (fun p => Z.eqb (latest_saleyear p) y) ps))
      by (rewrite E; now left).
    apply filter_In in Hq. destruct Hq as [Hq Hyq].
    apply Z.eqb_eq in Hyq. now split.
  - intros y c by_city Hout. rewrite G.
    destruct (filter (fun p => Z.eqb (latest_saleyear p) y) ps) as [|q qs] eqn:E;
      [discriminate|].
    intros [= <-]. rewrite dict_get_means, location_prices_get.
    destruct (prices_of_city c (q :: qs)) eqn:Ec; [reflexivity|].
    exfalso. apply Hout. apply prices_of_year_city_nonempty.
    unfold prices_of_year_city. rewrite E, Ec. discriminate.
Qed.

Lemma find_trends_mean_witness :
  exists trends : dict Z (dict string Q),
    fst (find_trends (built scenario)) = Returns trends /\
    (exists by_city : dict string Q,
        dict_get Z.eqb 2021%Z trends = Some by_city /\
        dict_get String.eqb "A"%string by_city = Some ((0 + 200) / 1)) /\
    dict_get Z.eqb 2019%Z trends = None.
Proof.
  destruct (find_trends_mean (built scenario))
    as (trends & Hrun & Hin & Hyear & _).
  exists trends. split; [exact Hrun|]. split.
  - destruct (Hin 2021%Z "A"%string) as (by_city & Hy & _ & Hc).
    + cbn. right. right. now left.
    + exists by_city. split; [exact Hy | exact Hc].
  - apply Hyear. cbn. intuition discriminate.
Defined.

Lemma yearly_location_prices_one_year (y : Z) (ps : list Property) :
  ps <> [] -> Forall (fun p => latest_saleyear p = y) ps ->
  yearly_location_prices ps = [(y, location_prices ps)].
Proof.
  induction ps as [|p ps IH] using rev_ind; [congruence|].
  intros _ H. apply Forall_app in H. destruct H as [Hps Hp].
  inversion Hp as [|? ? Hy _]; subst.
  rewrite yearly_location_prices_snoc, location_prices_snoc.
  destruct ps as [|q qs]; [reflexivity|].
  rewrite IH by (congruence || assumption). cbn.
  now rewrite Z.eqb_refl.
Qed.

Lemma location_prices_keys (ps : list Property) :
  map fst (location_prices ps) = first_seen (map city ps).
Proof.
  unfold first_seen.
  induction ps as [|p ps IH] using rev_ind; [reflexivity|].
  rewrite location_prices_snoc, dd_update_key_list, map_app, fold_left_app.
  cbn. now rewrite IH.
Qed.

(** X11.  When every listing has the same sale year, [find_trends] returns
    one entry, for that year, and it is the dictionary that
    [calculate_average_price_by_location] returns. *)
Theorem find_trends_one_year (s : RealEstateAnalyzer) (y : Z) :
  properties s <> [] ->
  Forall (fun p => latest_saleyear p = y) (properties s) ->
  exists avg_prices : dict string Q,
    fst (calculate_average_price_by_location s) = Returns avg_prices /\
    fst (find_trends s) = Returns [(y, avg_prices)].
Proof.
  intros Hne Hy. eexists.
  rewrite calculate_average_price_by_location_run, find_trends_run.
  split; [reflexivity|].
  now rewrite (yearly_location_prices_one_year y _ Hne Hy).
Qed.

Lemma find_trends_one_year_witness :
  exists avg_prices : dict string Q,
    fst (calculate_average_price_by_location (loaded [[listing1; listing2]]))
    = Returns avg_prices /\
    fst (find_trends (loaded [[listing1; listing2]]))
    = Returns [(2020%Z, avg_prices)].
Proof.
  apply (find_trends_one_year (loaded [[listing1; listing2]]) 2020%Z).
  - discriminate.
  - repeat constructor.
Defined.

(** X13.  The dictionary returned by
    [calculate_average_price_by_location] holds each city of the collection
    once, in the order in which the cities first appear in the collection;
    building the tree does not change what it returns. *)
Theorem calculate_average_price_by_location_keys (s : RealEstateAnalyzer) :
  exists avg_prices : dict string Q,
    fst (calculate_average_price_by_location s) = Returns avg_prices /\
    map fst avg_prices = first_seen (map city (properties s)) /\
    NoDup (map fst avg_prices) /\
    fst (calculate_average_price_by_location (snd (build_price_bst s)))
    = Returns avg_prices.
Proof.
  eexists. rewrite !calculate_average_price_by_location_run.
  rewrite build_price_bst_run. cbn.
  split; [reflexivity|].
  rewrite map_map. cbn.
  change (map (fun x : string * list Q => fst x) (location_prices (properties s)))
    with (map fst (location_prices (properties s))).
  split; [apply location_prices_keys|].
  split; [apply location_prices_NoDup | reflexivity].
Qed.

(** ** The plotted series and the prompt *)

Lemma insert_year_perm (y : Z) (ys : list Z) :
  Permutation (insert_year y ys) (y :: ys).
Proof.
  induction ys as [|z ys IH]; cbn; [reflexivity|].
  destruct (y <=? z)%Z; [reflexivity|].
  rewrite IH. apply perm_swap.
Qed.

Lemma insert_year_sorted (y : Z) (ys : list Z) :
  StronglySorted Z.le ys -> StronglySorted Z.le (insert_year y ys).
Proof.
  induction 1 as [|z ys Hs IH Hall]; cbn; [repeat constructor|].
  destruct (y <=? z)%Z eqn:E.
  - apply Z.leb_le in E. constructor; [now constructor|].
    constructor; [assumption|].
    eapply Forall_impl; [|exact Hall]. cbn. intros x Hx. lia.
  - apply Z.leb_gt in E. constructor; [assumption|].
    eapply Permutation_Forall; [symmetry; apply insert_year_perm|].
    constructor; [lia | assumption].
Qed.

Lemma py_sorted_perm (ys : list Z) : Permutation (py_sorted ys) ys.
Proof.
  induction ys as [|y ys IH]; cbn; [reflexivity|].
  now rewrite insert_year_perm, IH.
Qed.

Lemma py_sorted_sorted (ys : list Z) : StronglySorted Z.le (py_sorted ys).
Proof.
  induction ys as [|y ys IH]; cbn; [constructor|].
  now apply insert_year_sorted.
Qed.

Lemma sorted_NoDup_strict (ys : list Z) :
  StronglySorted Z.le ys -> NoDup ys -> StronglySorted Z.lt ys.
Proof.
  induction 1 as [|y ys Hs IH Hall]; intros Hnd; [constructor|].
  inversion Hnd as [|? ? Hy Hnd']; subst.
  constructor; [now apply IH|].
  rewrite Forall_forall in Hall |- *. intros x Hx.
  specialize (Hall x Hx).
  assert (x <> y) by (intros ->; contradiction).
  lia.
Qed.

Lemma yearly_prices_for_some (trends : dict Z (dict string Q))
    (location : string) (years : list Z) :
  Forall (fun y => In y (map fst trends)) years ->
  exists prices : list Q,
    yearly_prices_for trends location years = Some prices /\
    Forall2 (fun y v =>
               exists by_city : dict string Q,
                 dict_get Z.eqb y trends = Some by_city /\
                 v = dict_get_default String.eqb location 0 by_city)
            years prices.
Proof.
  induction 1 as [|y years Hy _ IH]; cbn.
  - exists []. split; [reflexivity | constructor].
  - destruct IH as (prices & Hrun & Hall). rewrite Hrun.
    destruct (dict_get Z.eqb y trends) as [by_city|] eqn:E.
    + eexists. split; [reflexivity|]. constructor; [|exact Hall].
      exists by_city. now split.
    + apply (dict_get_None_keys Z.eqb Z.eqb_eq) in E. contradiction.
Qed.

Lemma year_filter_nonempty (y : Z) (ps : list Property) :
  In y (map latest_saleyear ps) <->
  filter (fun p => Z.eqb (latest_saleyear p) y) ps <> [].
Proof.
  induction ps as [|p ps IH]; cbn; [intuition congruence|].
  destruct (Z.eqb (latest_saleyear p) y) eqn:E.
  - apply Z.eqb_eq in E. intuition congruence.
  - apply Z.eqb_neq in E. rewrite <- IH. intuition congruence.
Qed.

Lemma yearly_location_prices_keys (y : Z) (ps : list Property) :
  In y (map fst (yearly_location_prices ps)) <->
  In y (map latest_saleyear ps).
Proof.
  rewrite year_filter_nonempty.
  pose proof (dict_get_None_keys Z.eqb Z.eqb_eq y (yearly_location_prices ps))
    as H.
  rewrite yearly_location_prices_get in H.
  destruct (filter (fun p => Z.eqb (latest_saleyear p) y) ps).
  - split; [|congruence]. intros Hin. exfalso. now apply (proj1 H).
  - split; [discriminate|]. intros _.
    destruct (in_dec Z.eq_dec y (map fst (yearly_location_prices ps)))
      as [Hin|Hout]; [assumption|].
    apply H in Hout. discriminate.
Qed.

(** X14.  The line that [visualize_data] plots for a location never fails
    with [KeyError]; its years are the sale years of the collection, each
    once, in ascending order; and its value for a year is the mean price of
    the listings of that year and location, or 0 when there are none. *)
Theorem yearly_prices_series (s : RealEstateAnalyzer) (location : string) :
  exists (trends : dict Z (dict string Q)) (years : list Z) (prices : list Q),
    fst (find_trends s) = Returns trends /\
    yearly_prices trends location = Some (years, prices) /\
    StronglySorted Z.lt years /\
    (forall y : Z, In y years <-> In y (map latest_saleyear (properties s))) /\
    Forall2 (fun y v =>
               v = match prices_of_year_city y location (properties s) with
                   | [] => 0
                   | x :: xs => py_sum (x :: xs) / py_len (x :: xs)
                   end)
            years prices.
Proof.
  set (ps := properties s).
  set (trends :=
         map (fun kv : Z * dict string (list Q) =>
                (fst kv,
                 map (fun cl : string * list Q => (fst cl, mean_value (snd cl)))
                     (snd kv)))
             (yearly_location_prices ps)).
  assert (Hkeys : map fst trends = map fst (yearly_location_prices ps)).
  { unfold trends. rewrite map_map. reflexivity. }
  assert (Hin : Forall (fun y => In y (map fst trends))
                  (py_sorted (map fst trends))).
  { apply Forall_forall. intros y Hy.
    eapply Permutation_in; [apply py_sorted_perm | exact Hy]. }
  destruct (yearly_prices_for_some trends location _ Hin)
    as (prices & Hrun & Hall).
  exists trends, (py_sorted (map fst trends)), prices.
  split; [now rewrite find_trends_run|].
  split; [unfold yearly_prices; cbv zeta; unfold dict in *; now rewrite Hrun|].
  split; [|split].
  - apply sorted_NoDup_strict; [apply py_sorted_sorted|].
    eapply Permutation_NoDup; [symmetry; apply py_sorted_perm|].
    rewrite Hkeys. apply yearly_location_prices_NoDup.
  - intros y. rewrite <- yearly_location_prices_keys, <- Hkeys. fold ps.
    split; intros Hy; eapply Permutation_in; try exact Hy;
      [apply py_sorted_perm | symmetry; apply py_sorted_perm].
  - eapply Forall2_impl; [|exact Hall]. cbn.
    intros y v (by_city & Hy & ->).
    unfold trends in Hy.
    rewrite dict_get_map_values, yearly_location_prices_get in Hy.
    unfold prices_of_year_city. fold ps.
    destruct (filter (fun p => Z.eqb (latest_saleyear p) y) ps) as [|q qs];
      [discriminate|].
    cbn [option_map] in Hy. injection Hy as <-.
    unfold dict_get_default. rewrite dict_get_means, location_prices_get.
    now destruct (prices_of_city location (q :: qs)).
Qed.

(** ** Point queries and search after insertion *)

Lemma first_at_length (b : Q) (ps : list Property) :
  (length (first_at b ps) <= 1)%nat.
Proof.
  induction ps as [|p ps IH]; cbn; [lia|].
  destruct (Qeq_bool (latestPrice p) b); [cbn; lia | exact IH].
Qed.

Lemma price_below_empty (b : Q) (ps : list Property) :
  filter (price_below b b) ps = [].
Proof.
  apply filter_none, Forall_forall. intros p _. unfold price_below.
  destruct (Qle_bool b (latestPrice p)) eqn:E1; [|reflexivity].
  apply Qle_bool_iff in E1. apply Qlt_bool_false_iff. exact E1.
Qed.

Lemma Permutation_short {A} (xs ys : list A) :
  (length ys <= 1)%nat -> Permutation xs ys -> xs = ys.
Proof.
  intros Hlen HP. destruct ys as [|y [|y' ys]]; [| |cbn in Hlen; lia].
  - now apply Permutation_nil, Permutation_sym.
  - now apply Permutation_length_1_inv, Permutation_sym.
Qed.

(** X17.  A query whose two bounds are the same price returns at most one
    listing: the first loaded listing of that price, however many listings
    share it, and nothing when no listing has that price. *)
Theorem point_query_first_only (s : RealEstateAnalyzer) (price : Q) :
  fst (find_properties_in_price_range price price (snd (build_price_bst s)))
  = Returns (first_at price (properties s)).
Proof.
  rewrite build_price_bst_run, find_properties_in_price_range_run. cbn.
  f_equal. apply Permutation_short; [apply first_at_length|].
  rewrite search_by_price_range_ordered;
    [|apply Qle_refl | apply bst_ordered_fold_insert; exact I].
  rewrite top_at_fold_insert, price_below_empty, app_nil_r. reflexivity.
Qed.

(** X18.  A listing inserted into an ordered tree is found by every search
    whose bounds hold its price with the upper bound strictly above it. *)
Theorem search_finds_inserted (t : BST) (p : Property) (a b : Q) :
  bst_ordered t ->
  a <= latestPrice p -> latestPrice p < b ->
  In p (search_by_price_range (insert_bst t p) a b []).
Proof.
  intros Ht Ha Hb.
  apply Permutation_in with
    (l := top_at b (insert_bst t p) ++
          filter (price_below a b) (preorder (insert_bst t p))).
  - symmetry. apply search_by_price_range_ordered.
    + lra.
    + now apply bst_ordered_insert_bst.
  - apply in_or_app. right. apply filter_In. split.
    + eapply Permutation_in; [symmetry; apply preorder_insert_bst | now left].
    + unfold price_below. apply andb_true_iff. split.
      * now apply Qle_bool_iff.
      * now apply Qlt_bool_iff.
Qed.

Lemma search_finds_inserted_witness :
  In twin1 (search_by_price_range
              (insert_bst (price_bst_root (built scenario)) twin1)
              200000 300000 []).
Proof.
  apply (search_finds_inserted (price_bst_root (built scenario)) twin1
           200000 300000).
  - unfold built. rewrite build_price_bst_run. cbn [price_bst_root snd].
    apply bst_ordered_fold_insert. exact I.
  - discriminate.
  - reflexivity.
Defined.

(** ** The prompt of [main] *)

Lemma prompt_price_range_some
    (answers : list (option pyfloat)) (min_price max_price : pyfloat) :
  prompt_price_range answers = Some (min_price, max_price) ->
  pyfloat_lt min_price (Number 0) = false /\
  pyfloat_lt max_price (Number 0) = false /\
  pyfloat_lt max_price min_price = false /\
  exists before after : list (option pyfloat),
    answers = before ++ Some min_price :: Some max_price :: after.
Proof.
  assert (G : forall n answers,
             (length answers <= n)%nat ->
             prompt_price_range answers = Some (min_price, max_price) ->
             pyfloat_lt min_price (Number 0) = false /\
             pyfloat_lt max_price (Number 0) = false /\
             pyfloat_lt max_price min_price = false /\
             exists before after : list (option pyfloat),
               answers = before ++ Some min_price :: Some max_price :: after).
  { clear answers. induction n as [|n IH]; intros answers Hlen.
    - destruct answers; [discriminate | cbn in Hlen; lia].
    - destruct answers as [|[mn|] rest]; [discriminate | |].
      + destruct rest as [|[mx|] rest]; [discriminate | |].
        * change (prompt_price_range (Some mn :: Some mx :: rest))
            with (if pyfloat_lt mn (Number 0) || pyfloat_lt mx (Number 0)
                     || pyfloat_lt mx mn
                  then prompt_price_range rest else Some (mn, mx)).
          destruct (pyfloat_lt mn (Number 0)) eqn:E1;
            destruct (pyfloat_lt mx (Number 0)) eqn:E2;
            destruct (pyfloat_lt mx mn) eqn:E3; cbn [orb];
            try (intros H; apply IH in H; [|cbn in Hlen; lia];
                 destruct H as (H1 & H2 & H3 & before & after & ->);
                 repeat (split; [assumption|]);
                 now exists (Some mn :: Some mx :: before), after).
          intros [= <- <-].
          repeat (split; [assumption|]).
          now exists [], rest.
        * change (prompt_price_range (Some mn :: None :: rest))
            with (prompt_price_range rest).
          intros H. apply IH in H; [|cbn in Hlen; lia].
          destruct H as (H1 & H2 & H3 & before & after & ->).
          repeat (split; [assumption|]).
          now exists (Some mn :: None :: before), after.
      + change (prompt_price_range (None :: rest))
          with (prompt_price_range rest).
        intros H. apply IH in H; [|cbn in Hlen; lia].
        destruct H as (H1 & H2 & H3 & before & after & ->).
        repeat (split; [assumption|]).
        now exists (None :: before), after. }
  apply (G (length answers)). lia.
Qed.

(** X15.  The bounds that the prompt of [main] passes on are the two
    consecutive answers of one attempt; neither compares below 0 and the
    maximum does not compare below the minimum, so two numbers that are
    passed on satisfy 0 <= minimum <= maximum.  An answer that is
    not-a-number fails none of these comparisons: as the minimum it is
    passed on with any maximum that is not below 0. *)
Theorem prompt_price_range_valid (answers : list (option pyfloat)) :
  (forall min_price max_price : pyfloat,
      prompt_price_range answers = Some (min_price, max_price) ->
      (exists before after : list (option pyfloat),
          answers = before ++ Some min_price :: Some max_price :: after) /\
      pyfloat_lt min_price (Number 0) = false /\
      pyfloat_lt max_price (Number 0) = false /\
      pyfloat_lt max_price min_price = false /\
      (forall a b : Q,
          min_price = Number a -> max_price = Number b ->
          0 <= a /\ a <= b)) /\
  (forall max_price : pyfloat,
      pyfloat_lt max_price (Number 0) = false ->
      prompt_price_range (Some NaN :: Some max_price :: answers)
      = Some (NaN, max_price)).
Proof.
  split.
  - intros mn mx H.
    destruct (prompt_price_range_some answers mn mx H)
      as (H1 & H2 & H3 & Hex).
    split; [exact Hex|]. repeat (split; [assumption|]).
    intros a b -> ->. cbn in H1, H3.
    apply Qlt_bool_false_iff in H1, H3. now split.
  - intros mx H.
    change (prompt_price_range (Some NaN :: Some mx :: answers))
      with (if pyfloat_lt NaN (Number 0) || pyfloat_lt mx (Number 0)
               || pyfloat_lt mx NaN
            then prompt_price_range answers else Some (NaN, mx)).
    rewrite H. now destruct mx as [q| |[|]].
Qed.

(** A negative bound, an unreadable answer and an inverted pair are asked
    again before 150 and 300 are passed on. *)
Lemma prompt_price_range_valid_witness :
  prompt_price_range
    [Some (Number (-1)); Some (Number 5); None;
     Some (Number 300); Some (Number 150);
     Some (Number 150); Some (Number 300)]
  = Some (Number 150, Number 300) /\
  0 <= 150 /\ 150 <= 300.
Proof.
  split; [reflexivity|].
  apply (proj1 (prompt_price_range_valid
                  [Some (Number (-1)); Some (Number 5); None;
                   Some (Number 300); Some (Number 150);
                   Some (Number 150); Some (Number 300)])
               (Number 150) (Number 300) eq_refl)
        with (a := 150) (b := 300); reflexivity.
Defined.

(** ** The object store *)

Lemma put_length (r : Heap.ref) (n : Heap.BSTNode) (ns : list Heap.BSTNode) :
  length (Heap.put r n ns) = length ns.
Proof.
  revert r. induction ns as [|x ns IH]; intros [|r]; cbn; auto.
Qed.

Lemma put_same (r : Heap.ref) (n : Heap.BSTNode) (ns : list Heap.BSTNode) :
  (r < length ns)%nat -> nth_error (Heap.put r n ns) r = Some n.
Proof.
  revert r. induction ns as [|x ns IH]; intros [|r] H; cbn in *;
    try lia; [reflexivity|].
  apply IH. lia.
Qed.

Lemma put_other (r i : Heap.ref) (n : Heap.BSTNode) (ns : list Heap.BSTNode) :
  i <> r -> nth_error (Heap.put r n ns) i = nth_error ns i.
Proof.
  revert r i. induction ns as [|x ns IH]; intros [|r] [|i] H; cbn;
    try reflexivity; try congruence.
  apply IH. congruence.
Qed.

(** The search reads the store and gives it back. *)
Lemma heap_search_frame (fuel : nat) (root : option Heap.ref) (a b : Q)
    (acc : list Property) (w : Heap.world) :
  snd (Heap.search_by_price_range fuel root a b acc w) = w.
Proof.
  revert root acc w. induction fuel as [|fuel IH]; intros [r|] acc w;
    try reflexivity.
  cbn. unfold Heap.bind, Heap.get_node.
  destruct (nth_error (Heap.nodes w) r) as [n|]; [|reflexivity].
  set (acc1 := if in_range a b (latestPrice (Heap.property n))
               then acc ++ [Heap.property n] else acc).
  destruct (Qlt_bool a (latestPrice (Heap.property n))).
  - pose proof (IH (Heap.left n) acc1 w) as Hl.
    destruct (Heap.search_by_price_range fuel (Heap.left n) a b acc1 w)
      as [[acc2| |] w1]; cbn in Hl; subst w1; try reflexivity.
    destruct (Qlt_bool (latestPrice (Heap.property n)) b); [|reflexivity].
    apply IH.
  - cbn. destruct (Qlt_bool (latestPrice (Heap.property n)) b); [|reflexivity].
    apply IH.
Qed.

(** On a store that holds the tree, with fuel for its height, the search
    over the objects returns what the search over the tree returns. *)
Lemma heap_search_refines (ns : list Heap.BSTNode) (root : option Heap.ref)
    (t : BST) :
  represents ns root t ->
  forall (fuel : nat) (a b : Q) (acc : list Property) (w : Heap.world),
    Heap.nodes w = ns -> (height t <= fuel)%nat ->
    Heap.search_by_price_range fuel root a b acc w =
    (Heap.Done (search_by_price_range t a b acc), w).
Proof.
  induction 1 as [|r p lref rref l rt Hr _ IHl _ IHr];
    intros fuel a b acc w Hw Hfuel.
  - now destruct fuel.
  - destruct fuel as [|fuel]; [cbn in Hfuel; lia|].
    cbn in Hfuel.
    assert (Hl : (height l <= fuel)%nat) by lia.
    assert (Hrt : (height rt <= fuel)%nat) by lia.
    cbn. unfold Heap.bind, Heap.get_node. rewrite Hw, Hr. cbn.
    destruct (Qlt_bool a (latestPrice p)).
    + rewrite (IHl fuel a b _ w Hw Hl).
      destruct (Qlt_bool (latestPrice p) b); [|reflexivity].
      now rewrite (IHr fuel a b _ w Hw Hrt).
    + cbn. destruct (Qlt_bool (latestPrice p) b); [|reflexivity].
      now rewrite (IHr fuel a b _ w Hw Hrt).
Qed.

Lemma heap_for_fold_pure {A B} (step : B -> A -> B) (xs : list A) (acc : B)
    (w : Heap.world) :
  Heap.for_fold xs acc (fun d x => Heap.ret (step d x)) w =
  (Heap.Done (fold_left step xs acc), w).
Proof.
  revert acc. induction xs as [|x xs IH]; intros acc; [reflexivity|].
  exact (IH (step acc x)).
Qed.

Lemma heap_calculate_average_price_by_location_run (w : Heap.world) :
  Heap.calculate_average_price_by_location w =
  (Heap.of_outcome (mean_items (location_prices (Heap.properties w))), w).
Proof.
  unfold Heap.calculate_average_price_by_location, Heap.bind at 1.
  cbn. unfold Heap.bind. now rewrite heap_for_fold_pure.
Qed.

Lemma heap_find_trends_run (w : Heap.world) :
  Heap.find_trends w =
  (Heap.of_outcome (trends_of (yearly_location_prices (Heap.properties w))), w).
Proof.
  unfold Heap.find_trends, Heap.bind at 1.
  cbn. unfold Heap.bind. now rewrite heap_for_fold_pure.
Qed.

Lemma shaped_represents (ns : list Heap.BSTNode) (root : option Heap.ref)
    (t : BST) (fp : list Heap.ref) :
  shaped ns root t fp -> represents ns root t.
Proof. induction 1; econstructor; eassumption. Qed.

Lemma shaped_bound (ns : list Heap.BSTNode) (root : option Heap.ref)
    (t : BST) (fp : list Heap.ref) :
  shaped ns root t fp -> forall x, In x fp -> (x < length ns)%nat.
Proof.
  induction 1 as [|r p lref rref l rt fl fr Hr _ IHl _ IHr _ _];
    intros x Hx; [contradiction|].
  destruct Hx as [<-|Hx].
  - apply nth_error_Some. congruence.
  - apply in_app_or in Hx. destruct Hx; auto.
Qed.

(** A tree in the store is not affected by what happens to other objects. *)
Lemma shaped_agree (ns ns' : list Heap.BSTNode) (root : option Heap.ref)
    (t : BST) (fp : list Heap.ref) :
  shaped ns root t fp ->
  (forall x, In x fp -> nth_error ns' x = nth_error ns x) ->
  shaped ns' root t fp.
Proof.
  induction 1 as [|r p lref rref l rt fl fr Hr _ IHl _ IHr Hnr Hdis];
    intros Hag; [constructor|].
  apply shaped_node with (lref := lref) (rref := rref).
  - rewrite Hag; [assumption | now left].
  - apply IHl. intros x Hx. apply Hag. right. apply in_or_app. now left.
  - apply IHr. intros x Hx. apply Hag. right. apply in_or_app. now right.
  - assumption.
  - assumption.
Qed.

Lemma height_insert_bst (t : BST) (p : Property) :
  (height (insert_bst t p) <= S (height t))%nat.
Proof.
  induction t as [|q l IHl r IHr]; cbn; [lia|].
  destruct (Qlt_bool (latestPrice p) (latestPrice q)); cbn; lia.
Qed.

(** [insert_bst] on the objects: with fuel for the height of the tree it
    returns, makes one new object, changes no object outside the tree, and
    leaves in the store the tree that the insertion into [t] gives. *)
Lemma heap_insert_bst_refines (ns : list Heap.BSTNode)
    (root : option Heap.ref) (t : BST) (fp : list Heap.ref) :
  shaped ns root t fp ->
  forall (fuel : nat) (p : Property) (ps : list Property)
         (top : option Heap.ref),
    (height t <= fuel)%nat ->
    exists (root' : option Heap.ref) (ns' : list Heap.BSTNode)
           (fp' : list Heap.ref),
      Heap.insert_bst fuel root p (Heap.mkWorld ps top ns) =
      (Heap.Done root', Heap.mkWorld ps top ns') /\
      shaped ns' root' (insert_bst t p) fp' /\
      (forall x, In x fp' -> In x fp \/ x = length ns) /\
      length ns' = S (length ns) /\
      (forall i, ~ In i fp -> (i < length ns)%nat ->
                 nth_error ns' i = nth_error ns i).
Proof.
  induction 1 as [|r q lref rref l rt fl fr Hr Hsl IHl Hsr IHr Hnr Hdis];
    intros fuel p ps top Hfuel.
  - exists (Some (length ns)), (ns ++ [Heap.mkNode p None None]), [length ns].
    split; [now destruct fuel|]. split; [|split; [|split]].
    + change [length ns] with (length ns :: [] ++ []).
      apply shaped_node with (lref := None) (rref := None);
        try constructor; auto.
      rewrite nth_error_app2 by lia. now rewrite Nat.sub_diag.
    + intros x [<-|[]]. now right.
    + rewrite length_app. cbn. lia.
    + intros i _ Hi. now rewrite nth_error_app1.
  - destruct fuel as [|fuel]; [cbn in Hfuel; lia|]. cbn in Hfuel.
    assert (Hrlt : (r < length ns)%nat) by (apply nth_error_Some; congruence).
    pose proof (shaped_bound _ _ _ _ Hsl) as Bl.
    pose proof (shaped_bound _ _ _ _ Hsr) as Br.
    cbn [Heap.insert_bst insert_bst]. unfold Heap.bind at 1, Heap.get_node.
    cbn [Heap.nodes]. rewrite Hr. cbn [Heap.property Heap.left Heap.right].
    destruct (Qlt_bool (latestPrice p) (latestPrice q)).
    + destruct (IHl fuel p ps top ltac:(lia))
        as (l' & ns1 & fl' & Hrun & Hs & Hsub & Hlen & Hout).
      unfold Heap.bind at 1. rewrite Hrun.
      unfold Heap.bind, Heap.set_left. cbn [Heap.nodes].
      assert (Hr1 : nth_error ns1 r = Some (Heap.mkNode q lref rref)).
      { rewrite Hout; [assumption | | assumption].
        intros Hin. apply Hnr. apply in_or_app. now left. }
      rewrite Hr1. cbn [Heap.property Heap.right Heap.properties
                          Heap.price_bst_root Heap.ret].
      exists (Some r), (Heap.put r (Heap.mkNode q l' rref) ns1),
        (r :: fl' ++ fr).
      split; [reflexivity|].
      assert (Hrfl' : ~ In r fl').
      { intros Hin. destruct (Hsub r Hin) as [Hin'|Heq]; [|lia].
        apply Hnr. apply in_or_app. now left. }
      split; [|split; [|split]].
      * apply shaped_node with (lref := l') (rref := rref).
        -- apply put_same. lia.
        -- apply shaped_agree with (ns := ns1); [assumption|].
           intros x Hx. apply put_other. intros ->. contradiction.
        -- apply shaped_agree with (ns := ns); [assumption|].
           intros x Hx. rewrite put_other.
           ++ apply Hout; [|now apply Br].
              intros Hin. now apply (Hdis x).
           ++ intros ->. apply Hnr. apply in_or_app. now right.
        -- intros Hin. apply in_app_or in Hin. destruct Hin as [Hin|Hin];
             [contradiction|]. apply Hnr. apply in_or_app. now right.
        -- intros x Hx Hxr. destruct (Hsub x Hx) as [Hin|Heq].
           ++ now apply (Hdis x).
           ++ specialize (Br x Hxr). lia.
      * intros x [<-|Hx]; [left; now left|].
        apply in_app_or in Hx. destruct Hx as [Hx|Hx].
        -- destruct (Hsub x Hx) as [Hin|Heq]; [|now right].
           left. right. apply in_or_app. now left.
        -- left. right. apply in_or_app. now right.
      * now rewrite put_length.
      * intros i Hi Hlt. rewrite put_other.
        -- apply Hout; [|assumption].
           intros Hin. apply Hi. right. apply in_or_app. now left.
        -- intros ->. apply Hi. now left.
    + destruct (IHr fuel p ps top ltac:(lia))
        as (r' & ns1 & fr' & Hrun & Hs & Hsub & Hlen & Hout).
      unfold Heap.bind at 1. rewrite Hrun.
      unfold Heap.bind, Heap.set_right. cbn [Heap.nodes].
      assert (Hr1 : nth_error ns1 r = Some (Heap.mkNode q lref rref)).
      { rewrite Hout; [assumption | | assumption].
        intros Hin. apply Hnr. apply in_or_app. now right. }
      rewrite Hr1. cbn [Heap.property Heap.left Heap.properties
                          Heap.price_bst_root Heap.ret].
      exists (Some r), (Heap.put r (Heap.mkNode q lref r') ns1),
        (r :: fl ++ fr').
      split; [reflexivity|].
      assert (Hrfr' : ~ In r fr').
      { intros Hin. destruct (Hsub r Hin) as [Hin'|Heq]; [|lia].
        apply Hnr. apply in_or_app. now right. }
      split; [|split; [|split]].
      * apply shaped_node with (lref := lref) (rref := r').
        -- apply put_same. lia.
        -- apply shaped_agree with (ns := ns); [assumption|].
           intros x Hx. rewrite put_other.
           ++ apply Hout; [|now apply Bl].
              intros Hin. now apply (Hdis x).
           ++ intros ->. apply Hnr. apply in_or_app. now left.
        -- apply shaped_agree with (ns := ns1); [assumption|].
           intros x Hx. apply put_other. intros ->. contradiction.
        -- intros Hin. apply in_app_or in Hin. destruct Hin as [Hin|Hin];
             [|contradiction]. apply Hnr. apply in_or_app. now left.
        -- intros x Hx Hxr. destruct (Hsub x Hxr) as [Hin|Heq].
           ++ now apply (Hdis x).
           ++ specialize (Bl x Hx). lia.
      * intros x [<-|Hx]; [left; now left|].
        apply in_app_or in Hx. destruct Hx as [Hx|Hx].
        -- left. right. apply in_or_app. now left.
        -- destruct (Hsub x Hx) as [Hin|Heq]; [|now right].
           left. right. apply in_or_app. now right.
      * now rewrite put_length.
      * intros i Hi Hlt. rewrite put_other.
        -- apply Hout; [|assumption].
           intros Hin. apply Hi. right. apply in_or_app. now right.
        -- intros ->. apply Hi. now left.
Qed.

Lemma heap_build_loop (rest : list Property) :
  forall (t : BST) (ns : list Heap.BSTNode) (root : option Heap.ref)
         (fp : list Heap.ref) (ps : list Property) (fuel : nat),
    shaped ns root t fp ->
    (height t + length rest <= fuel)%nat ->
    exists (root' : option Heap.ref) (ns' : list Heap.BSTNode)
           (fp' : list Heap.ref),
      Heap.for_each rest
        (fun prop =>
           Heap.bind Heap.get_price_bst_root (fun r =>
           Heap.bind (Heap.insert_bst fuel r prop) (fun r' =>
           Heap.set_price_bst_root r')))
        (Heap.mkWorld ps root ns) =
      (Heap.Done tt, Heap.mkWorld ps root' ns') /\
      shaped ns' root' (fold_left insert_bst rest t) fp'.
Proof.
  induction rest as [|p rest IH]; intros t ns root fp ps fuel Hs Hfuel.
  - exists root, ns, fp. now split.
  - cbn in Hfuel.
    destruct (heap_insert_bst_refines ns root t fp Hs fuel p ps root
                ltac:(lia))
      as (root1 & ns1 & fp1 & Hrun & Hs1 & _).
    pose proof (height_insert_bst t p) as Hh.
    destruct (IH (insert_bst t p) ns1 root1 fp1 ps fuel Hs1 ltac:(lia))
      as (root' & ns' & fp' & Hloop & Hs').
    exists root', ns', fp'. split; [|exact Hs'].
    cbn [Heap.for_each]. unfold Heap.bind at 1.
    unfold Heap.bind at 1. cbn [Heap.get_price_bst_root Heap.price_bst_root].
    unfold Heap.bind at 1. rewrite Hrun.
    cbn [Heap.set_price_bst_root Heap.properties Heap.nodes].
    exact Hloop.
Qed.

(** X19.  [build_price_bst] on the objects: with fuel for as many levels as
    there are listings, it returns, keeps the listing collection and leaves
    at the root the tree that the insertions give, each node an object of
    its own, none shared between two subtrees. *)
Lemma heap_build_price_bst_refines (fuel : nat) (w : Heap.world) :
  (length (Heap.properties w) <= fuel)%nat ->
  exists (root : option Heap.ref) (ns : list Heap.BSTNode)
         (fp : list Heap.ref),
    Heap.build_price_bst fuel w =
    (Heap.Done tt, Heap.mkWorld (Heap.properties w) root ns) /\
    shaped ns root (fold_left insert_bst (Heap.properties w) Nil) fp.
Proof.
  intros Hfuel.
  destruct (heap_build_loop (Heap.properties w) Nil (Heap.nodes w) None []
              (Heap.properties w) fuel (shaped_nil _) ltac:(cbn; lia))
    as (root & ns & fp & Hloop & Hs).
  exists root, ns, fp. split; [|exact Hs].
  unfold Heap.build_price_bst, Heap.bind at 1.
  cbn [Heap.set_price_bst_root]. unfold Heap.bind at 1.
  cbn [Heap.get_properties Heap.properties Heap.price_bst_root Heap.nodes].
  exact Hloop.
Qed.

(** On the three sample listings. *)
Lemma heap_build_price_bst_refines_witness :
  exists (root : option Heap.ref) (ns : list Heap.BSTNode)
         (fp : list Heap.ref),
    Heap.build_price_bst 3
      (snd (Heap.load_data scenario Heap.RealEstateAnalyzer_init)) =
    (Heap.Done tt, Heap.mkWorld scenario root ns) /\
    shaped ns root (fold_left insert_bst scenario Nil) fp.
Proof.
  apply (heap_build_price_bst_refines 3
           (snd (Heap.load_data scenario Heap.RealEstateAnalyzer_init))).
  cbn. lia.
Defined.

(** C9.  On the objects of the analyzer, the range query and the two
    analyses give the store back as they found it: the same listing
    collection, the same root, and every [BSTNode] object with the same
    listing and the same [left] and [right]; and they return what the
    methods return on the tree and the collection that the objects hold. *)
Theorem read_operations_leave_objects
    (w : Heap.world) (fuel : nat) (min_price max_price : Q) :
  snd (Heap.find_properties_in_price_range fuel min_price max_price w) = w /\
  snd (Heap.calculate_average_price_by_location w) = w /\
  snd (Heap.find_trends w) = w /\
  (forall t : BST,
      represents (Heap.nodes w) (Heap.price_bst_root w) t ->
      (height t <= fuel)%nat ->
      fst (Heap.find_properties_in_price_range fuel min_price max_price w)
      = Heap.Done (search_by_price_range t min_price max_price [])) /\
  fst (Heap.calculate_average_price_by_location w)
  = Heap.of_outcome (mean_items (location_prices (Heap.properties w))) /\
  fst (Heap.find_trends w)
  = Heap.of_outcome (trends_of (yearly_location_prices (Heap.properties w))).
Proof.
  split; [|split; [|split; [|split; [|split]]]].
  - unfold Heap.find_properties_in_price_range, Heap.bind.
    cbn [Heap.get_price_bst_root]. apply heap_search_frame.
  - now rewrite heap_calculate_average_price_by_location_run.
  - now rewrite heap_find_trends_run.
  - intros t Ht Hfuel.
    unfold Heap.find_properties_in_price_range, Heap.bind.
    cbn [Heap.get_price_bst_root].
    now rewrite (heap_search_refines _ _ t Ht fuel _ _ _ w eq_refl Hfuel).
  - now rewrite heap_calculate_average_price_by_location_run.
  - now rewrite heap_find_trends_run.
Qed.

(** On the objects that load and build make of the three sample listings:
    the query returns listing 2 and listing 3 and the store is as before. *)
Lemma read_operations_leave_objects_witness :
  fst (Heap.find_properties_in_price_range 3 150 300 scenario_objects)
  = Heap.Done [listing2; listing3] /\
  snd (Heap.find_properties_in_price_range 3 150 300 scenario_objects)
  = scenario_objects.
Proof.
  destruct (read_operations_leave_objects scenario_objects 3 150 300)
    as (Hframe & _ & _ & Hret & _).
  split; [|exact Hframe].
  apply (Hret (price_bst_root (built scenario))).
  - repeat (econstructor; try reflexivity).
  - cbn. lia.
Defined.
